(** * Chaco range, zoom-history and arrow geometry: a shallow embedding

    The development follows these source files of the plotting toolkit:

    - [chaco/tools/better_zoom.py]          (module [BetterZoom] below),
    - [enthought/chaco2/data_range_2d.py]   (modules [DataRange1D] and
                                             [DataRange2D]),
    - [enthought/chaco2/data_label.py]      (module [DataLabel] for
                                             [draw_arrow], [LabelLayout]
                                             for [DataLabel._do_layout]),
    - [enthought/chaco2/examples/updating_plot/updating_plot5.py]
                                            (module [UpdatingPlot]),
    - [examples/shell/dates.py]             (module [Dates]).

    The definitions come first; their properties follow in the modules
    [ZoomFacts], [RangeFacts] and [ArrowFacts], and then in [ZoomMore],
    [RangeMore], [ArrowMore], [UpdatingPlotFacts], [LabelFacts] and
    [DatesFacts].  The files these rely on and that are not at hand
    ([tool_states.py], [tool_history_mixin.py], [data_range_1d.py],
    [base_data_range.py]) are modelled, each such definition saying so.

    Python objects are records, attribute assignment is explicit state
    passing in a state-and-exception monad (a raised exception keeps the
    mutations made before it, as in Python), and the floating-point
    numbers of the program are abstracted by the interface [Arith], with
    two instances: IEEE binary64 ([PrimFloat.float], what CPython
    computes with) and the exact rationals [Qc] (for the statements made
    "in exact arithmetic"). *)

From Stdlib Require Import String ZArith QArith Qcanon List Bool.
From Stdlib Require Import Floats Reals Lra Lia.
Import ListNotations.

Set Implicit Arguments.
Set Warnings "-register-all,-inexact-float".

(* ================================================================== *)
(** * Python run time: exceptions and stateful computations *)
(* ================================================================== *)

Module Py.

(** The exceptions the modelled code can raise. *)
Inductive exn : Type :=
| ZeroDivisionError
| NameError
| NotImplementedError
| IndexError.

(** A call either returns a value or raises. *)
Inductive outcome (A : Type) : Type :=
| Returned (a : A)
| Raised (e : exn).
Arguments Returned {A} a.
Arguments Raised {A} e.

(** A method of an object with state [S]: the state after the call is
    always available, also when the call raised. *)
Definition M (S A : Type) : Type := S -> outcome A * S.

Definition ret {S A} (a : A) : M S A := fun s => (Returned a, s).

Definition bind {S A B} (c : M S A) (k : A -> M S B) : M S B :=
  fun s =>
    match c s with
    | (Returned a, s') => k a s'
    | (Raised e, s') => (Raised e, s')
    end.

Definition raise {S A} (e : exn) : M S A := fun s => (Raised e, s).
Definition get {S} : M S S := fun s => (Returned s, s).
Definition put {S} (s : S) : M S unit := fun _ => (Returned tt, s).
Definition modify {S} (f : S -> S) : M S unit := fun s => (Returned tt, f s).

(** [if c: body] with no [else]. *)
Definition when {S} (c : bool) (body : M S unit) : M S unit :=
  if c then body else ret tt.

(** [for x in l: body(x)]. *)
Fixpoint for_each {S A} (body : A -> M S unit) (l : list A) : M S unit :=
  match l with
  | [] => ret tt
  | x :: l' => bind (body x) (fun _ => for_each body l')
  end.

(** Running a method on the part [P] of the state [S] selected by a
    getter and a setter (a call on a sub-object). *)
Definition zoom_on {S P A} (proj : S -> P) (upd : P -> S -> S)
           (c : M P A) : M S A :=
  fun s => let (r, p') := c (proj s) in (r, upd p' s).

Definition state_after {S A} (r : outcome A * S) : S := snd r.
Definition result_of {S A} (r : outcome A * S) : outcome A := fst r.

(** [c] relates the state it starts from to the state it leaves, whether
    it returns or raises. *)
Definition transition {S A} (R : S -> S -> Prop) (c : M S A) : Prop :=
  forall s, R s (state_after (c s)).

End Py.

Import Py.

Declare Scope py_scope.
Delimit Scope py_scope with py.
Notation "x <- c ;; k" := (bind c (fun x => k))
(at level 61, c at next level, right associativity) : py_scope.
Notation "c ;;; k" := (bind c (fun _ => k))
(at level 61, right associativity) : py_scope.

(* ================================================================== *)
(** * Numbers *)
(* ================================================================== *)

(** The operations the program uses on its numbers.  [fdiv] is the raw
  quotient; Python's [/] on floats is [py_div] below, which raises
  [ZeroDivisionError] on a zero divisor. *)
Class Arith (F : Type) : Type := {
f0 : F;
f1 : F;
f2 : F;
fadd : F -> F -> F;
fsub : F -> F -> F;
fmul : F -> F -> F;
fdiv : F -> F -> F;
feqb : F -> F -> bool;
fleb : F -> F -> bool
}.

(** Python's [a / b]. *)
Definition py_div {F} `{Arith F} {S} (a b : F) : M S F :=
if feqb b f0 then raise ZeroDivisionError else ret (fdiv a b).

(** Python's [a != b]. *)
Definition fneb {F} `{Arith F} (a b : F) : bool := negb (feqb a b).

(** [lo <= x <= hi] as the program tests it. *)
Definition between {F} `{Arith F} (lo hi x : F) : bool :=
fleb x hi && fleb lo x.

(** IEEE binary64, the numbers of CPython. *)
#[export] Instance float_arith : Arith PrimFloat.float := {|
f0 := 0%float;
f1 := 1%float;
f2 := 2%float;
fadd := PrimFloat.add;
fsub := PrimFloat.sub;
fmul := PrimFloat.mul;
fdiv := PrimFloat.div;
feqb := PrimFloat.eqb;
fleb := PrimFloat.leb
|}.

(** Exact rational arithmetic. *)
Definition Qc_leb (a b : Qc) : bool := Qle_bool (this a) (this b).

#[export] Instance exact_arith : Arith Qc := {|
f0 := Q2Qc 0;
f1 := Q2Qc 1;
f2 := Q2Qc 2;
fadd := Qcplus;
fsub := Qcminus;
fmul := Qcmult;
fdiv := Qcdiv;
feqb := Qc_eq_bool;
fleb := Qc_leb
|}.

Declare Scope arith_scope.
Delimit Scope arith_scope with ar.
Infix "+" := fadd : arith_scope.
Infix "-" := fsub : arith_scope.
Infix "*" := fmul : arith_scope.
Infix "/" := fdiv : arith_scope.

(* ================================================================== *)
(** * chaco/tools/better_zoom.py *)
(* ================================================================== *)

Module BetterZoom.

Section Tool.

Context {F : Type} `{Arith F}.

(** ** The objects the tool works on *)

(** What the tool reads and writes of a mapper's range: its [low] and
    [high] attributes. *)
Record Range : Type := { low : F; high : F }.

(** A one-dimensional mapper: its range, and its data-from-screen
    function (the mapper classes are outside the modelled files; the
    function is whatever the mapper object computes from its current
    range). *)
Record Mapper : Type := {
  range : Range;
  map_data_with : Range -> F -> F
}.

Definition map_data (m : Mapper) (screen : F) : F :=
  map_data_with m (range m) screen.

Definition set_range (r : Range) (m : Mapper) : Mapper :=
  {| range := r; map_data_with := map_data_with m |}.

(** [component.orientation]: the code tests it against ['h'] (and
    once against ['v']); the plot components declare it as
    [Enum("h", "v")]. *)
Inductive Orientation : Type := Horizontal | Vertical.

Definition is_h (o : Orientation) : bool :=
  match o with Horizontal => true | Vertical => false end.
Definition is_v (o : Orientation) : bool :=
  match o with Vertical => true | Horizontal => false end.

(** The plot component.  [index_mapper] and [value_mapper] are the two
    one-dimensional mappers the tool states act on; for a component
    whose index mapper is a [GridMapper] they stand for its
    [_xmapper] and [_ymapper]. *)
Record Component : Type := {
  orientation : Orientation;
  bounds : F * F;
  index_mapper : Mapper;
  value_mapper : Mapper
}.

Definition set_index_mapper (m : Mapper) (c : Component) : Component :=
  {| orientation := orientation c; bounds := bounds c;
     index_mapper := m; value_mapper := value_mapper c |}.

Definition set_value_mapper (m : Mapper) (c : Component) : Component :=
  {| orientation := orientation c; bounds := bounds c;
     index_mapper := index_mapper c; value_mapper := m |}.

(** [axis = Enum("both", "index", "value")]. *)
Inductive Axis : Type := AxisBoth | AxisIndex | AxisValue.

(** The tool states stored in the history ([tool_states.py]). *)
Inductive ToolState : Type :=
| ZoomState (prev next : F * F)
| PanState (prev next : F * F)
| GroupedToolState (states : list ToolState).

(** The attributes of a [BetterZoom] object (the key bindings, which
    only the key dispatcher reads, are left out).  [_history] and
    [_history_index] are the two attributes of [ToolHistoryMixin]; the
    index is a count, never negative.  [position] is the pointer
    position the tool records in [normal_mouse_move]. *)
Record BetterZoom : Type := {
  enable_wheel : bool;
  zoom_to_mouse : bool;
  axis : Axis;
  x_max_zoom_factor : F;
  y_max_zoom_factor : F;
  x_min_zoom_factor : F;
  y_min_zoom_factor : F;
  zoom_factor : F;
  _index_factor : F;
  _value_factor : F;
  _history : list ToolState;
  _history_index : nat;
  position : F * F;
  component : Component
}.

Definition set_factors (i v : F) (t : BetterZoom) : BetterZoom :=
  {| enable_wheel := enable_wheel t; zoom_to_mouse := zoom_to_mouse t;
     axis := axis t;
     x_max_zoom_factor := x_max_zoom_factor t;
     y_max_zoom_factor := y_max_zoom_factor t;
     x_min_zoom_factor := x_min_zoom_factor t;
     y_min_zoom_factor := y_min_zoom_factor t;
     zoom_factor := zoom_factor t;
     _index_factor := i; _value_factor := v;
     _history := _history t; _history_index := _history_index t;
     position := position t; component := component t |}.

Definition set_history (hist : list ToolState) (idx : nat)
           (t : BetterZoom) : BetterZoom :=
  {| enable_wheel := enable_wheel t; zoom_to_mouse := zoom_to_mouse t;
     axis := axis t;
     x_max_zoom_factor := x_max_zoom_factor t;
     y_max_zoom_factor := y_max_zoom_factor t;
     x_min_zoom_factor := x_min_zoom_factor t;
     y_min_zoom_factor := y_min_zoom_factor t;
     zoom_factor := zoom_factor t;
     _index_factor := _index_factor t; _value_factor := _value_factor t;
     _history := hist; _history_index := idx;
     position := position t; component := component t |}.

Definition set_component (c : Component) (t : BetterZoom) : BetterZoom :=
  {| enable_wheel := enable_wheel t; zoom_to_mouse := zoom_to_mouse t;
     axis := axis t;
     x_max_zoom_factor := x_max_zoom_factor t;
     y_max_zoom_factor := y_max_zoom_factor t;
     x_min_zoom_factor := x_min_zoom_factor t;
     y_min_zoom_factor := y_min_zoom_factor t;
     zoom_factor := zoom_factor t;
     _index_factor := _index_factor t; _value_factor := _value_factor t;
     _history := _history t; _history_index := _history_index t;
     position := position t; component := c |}.

(** A call on [tool.component.index_mapper] / [.value_mapper]. *)
Definition on_index_mapper {A} (c : M Mapper A) : M BetterZoom A :=
  zoom_on (fun t => index_mapper (component t))
          (fun m t => set_component (set_index_mapper m (component t)) t) c.

Definition on_value_mapper {A} (c : M Mapper A) : M BetterZoom A :=
  zoom_on (fun t => value_mapper (component t))
          (fun m t => set_component (set_value_mapper m (component t)) t) c.

(** ** Private interface (lines 396-443) *)

Inductive ScreenAxis : Type := X | Y.

(** [_zoom_limit_reached(factor, xy_axis)]. *)
Definition _zoom_limit_reached (t : BetterZoom) (factor : F)
           (xy_axis : ScreenAxis) : bool :=
  match xy_axis with
  | X =>
      if fleb factor (x_max_zoom_factor t) && fleb (x_min_zoom_factor t) factor
      then false else true
  | Y =>
      if fleb factor (y_max_zoom_factor t) && fleb (y_min_zoom_factor t) factor
      then false else true
  end.

(** [_zoom_in_mapper(mapper, factor)], as a method of the mapper it
    mutates. *)
Definition _zoom_in_mapper (factor : F) : M Mapper unit :=
  (mapper <- get ;;
   let high := high (range mapper) in
   let low := low (range mapper) in
   let range := (high - low)%ar in
   let center := ((low + high) / f2)%ar in
   new_range <- py_div range factor ;;
   put (set_range {| high := (center + new_range / f2)%ar;
                     low := (center - new_range / f2)%ar |} mapper))%py.

(** [_get_x_mapper] and [_get_y_mapper]. *)
Definition _get_x_mapper (t : BetterZoom) : Mapper :=
  if is_h (orientation (component t))
  then index_mapper (component t) else value_mapper (component t).

Definition _get_y_mapper (t : BetterZoom) : Mapper :=
  if is_h (orientation (component t))
  then value_mapper (component t) else index_mapper (component t).

(** [_center_screen]. *)
Definition _center_screen (t : BetterZoom) : F * F :=
  ((fst (bounds (component t)) / f2)%ar, (snd (bounds (component t)) / f2)%ar).

Local Open Scope py_scope.
Local Open Scope arith_scope.

(** ** Tool states ([tool_states.py]) *)

(** Modelled from the spec: [tool_states.py] is not among the sources.
    The tool is "mutating a plot's ranges", and a pan moves a range
    without resizing it: the range of the mapper is centred on [target],
    its width kept. *)
Definition pan_mapper (target : F) : M Mapper unit :=
  mapper <- get ;;
  let high := high (range mapper) in
  let low := low (range mapper) in
  let range := high - low in
  put (set_range {| high := target + range / f2;
                    low := target - range / f2 |} mapper).

(** Modelled from the spec: [ToolState.apply] of [tool_states.py], which
    is not among the sources.  The states are built in [zoom_in] and its
    siblings from the factor pair before ([prev]) and after ([next]) the
    operation, and from the data points under the screen centre
    ([prev]) and under the pointer ([next]).  Applying a zoom state
    rescales the index range by [next[0] / prev[0]] and the value range
    by [next[1] / prev[1]] through [_zoom_in_mapper] (a ratio of 1.0
    needs no call) and then stores [next] as the tool's factors;
    applying a pan state recentres on [next] the range of each
    coordinate that moved; a grouped state applies its members in
    order.  The two mappers are taken to have ranges of their own (no
    range object shared by both). *)
Fixpoint apply (s : ToolState) : M BetterZoom unit :=
  match s with
  | ZoomState prev next =>
      index_factor <- py_div (fst next) (fst prev) ;;
      value_factor <- py_div (snd next) (snd prev) ;;
      when (fneb index_factor f1)
           (on_index_mapper (_zoom_in_mapper index_factor)) ;;;
      when (fneb value_factor f1)
           (on_value_mapper (_zoom_in_mapper value_factor)) ;;;
      modify (set_factors (fst next) (snd next))
  | PanState prev next =>
      when (fneb (fst next) (fst prev))
           (on_index_mapper (pan_mapper (fst next))) ;;;
      when (fneb (snd next) (snd prev))
           (on_value_mapper (pan_mapper (snd next)))
  | GroupedToolState states =>
      (fix apply_all (l : list ToolState) : M BetterZoom unit :=
         match l with
         | [] => ret tt
         | s' :: l' => apply s' ;;; apply_all l'
         end) states
  end.

(** Modelled from the spec: [ToolState.revert] of [tool_states.py], not
    among the sources ("reversible interaction state").  Reverting a
    zoom state rescales the two ranges by [prev / next] through
    [_zoom_in_mapper] and stores [prev] as the tool's factors; reverting
    a pan state recentres on [prev] the range of each coordinate that
    moved; a grouped state reverts its members in reverse order. *)
Fixpoint revert (s : ToolState) : M BetterZoom unit :=
  match s with
  | ZoomState prev next =>
      index_factor <- py_div (fst prev) (fst next) ;;
      on_index_mapper (_zoom_in_mapper index_factor) ;;;
      value_factor <- py_div (snd prev) (snd next) ;;
      on_value_mapper (_zoom_in_mapper value_factor) ;;;
      modify (set_factors (fst prev) (snd prev))
  | PanState prev next =>
      when (fneb (fst next) (fst prev))
           (on_index_mapper (pan_mapper (fst prev))) ;;;
      when (fneb (snd next) (snd prev))
           (on_value_mapper (pan_mapper (snd prev)))
  | GroupedToolState states =>
      (fix revert_all (l : list ToolState) : M BetterZoom unit :=
         match l with
         | [] => ret tt
         | s' :: l' => revert_all l' ;;; revert s'
         end) states
  end.

(** ** The history ([tool_history_mixin.py]) *)

(** Modelled from the spec: [ToolHistoryMixin._current_state], not among
    the sources: the state of the "history stack" at the history
    index. *)
Definition _current_state : M BetterZoom ToolState :=
  t <- get ;;
  match nth_error (_history t) (_history_index t) with
  | Some s => ret s
  | None => raise IndexError
  end.

(** Modelled from the spec: [ToolHistoryMixin._append_state], not among
    the sources: the history is cut after the current index, the state
    is appended and becomes the current one. *)
Definition _append_state (state : ToolState) : M BetterZoom unit :=
  modify (fun t =>
    let new_history := firstn (S (_history_index t)) (_history t) ++ [state] in
    set_history new_history (length new_history - 1)%nat t).

(** ** ToolHistoryMixin interface (lines 449-475) *)

Definition _next_state_pressed : M BetterZoom unit :=
  s <- _current_state ;; apply s.

Definition _prev_state_pressed : M BetterZoom unit :=
  t <- get ;;
  match nth_error (_history t) (S (_history_index t)) with
  | Some s => revert s
  | None => raise IndexError
  end.

Definition _reset_state_pressed : M BetterZoom unit :=
  t <- get ;;
  for_each revert (rev (_history t)) ;;;
  modify (fun t => set_history [] (_history_index t) t).

(** Modelled from the spec: the previous-state action of
    [ToolHistoryMixin] ("history stack with forward/back navigation"),
    not among the sources.  As the docstring of [_prev_state_pressed]
    says, the history index "will have already been set to the index
    corresponding to the previous state" when the handler is called;
    there is a previous state when the index is positive, and nothing
    happens otherwise. *)
Definition prev_state_action : M BetterZoom unit :=
  t <- get ;;
  when (0 <? _history_index t)%nat
       (modify (fun t => set_history (_history t) (_history_index t - 1)%nat t) ;;;
        _prev_state_pressed).

(** Modelled from the spec: the next-state action of [ToolHistoryMixin],
    not among the sources.  The history index "will have already been
    set to the index corresponding to the next state" when
    [_next_state_pressed] is called; there is a next state when the
    index is at most [len(self._history) - 2]. *)
Definition next_state_action : M BetterZoom unit :=
  t <- get ;;
  when (Z.of_nat (_history_index t) <=? Z.of_nat (length (_history t)) - 2)%Z
       (modify (fun t => set_history (_history t) (S (_history_index t)) t) ;;;
        _next_state_pressed).

(** Modelled from the spec: the reset action of [ToolHistoryMixin], not
    among the sources: "the history index will have already been set to
    0" when [_reset_state_pressed] is called. *)
Definition reset_state_action : M BetterZoom unit :=
  modify (fun t => set_history (_history t) 0%nat t) ;;;
  _reset_state_pressed.

(** ** Public interface (lines 66-332) *)

(** The part the six zoom methods share word for word (lines 89-114,
    139-164, 181-206, 223-248, 265-290, 307-332): build the state, apply
    it, append it to the history. *)
Definition perform_zoom (new_index_factor new_value_factor : F)
  : M BetterZoom unit :=
  t <- get ;;
  if zoom_to_mouse t then
    let location := position t in
    let x_map := _get_x_mapper t in
    let y_map := _get_y_mapper t in
    let next := (map_data x_map (fst location),
                 map_data y_map (snd location)) in
    let prev := (map_data x_map (fst (bounds (component t)) / f2),
                 map_data y_map (snd (bounds (component t)) / f2)) in
    let pan_state := PanState prev next in
    let zoom_state := ZoomState (_index_factor t, _value_factor t)
                                (new_index_factor, new_value_factor) in
    let states := GroupedToolState [pan_state; zoom_state] in
    apply states ;;;
    _append_state states
  else
    let zoom_state := ZoomState (_index_factor t, _value_factor t)
                                (new_index_factor, new_value_factor) in
    apply zoom_state ;;;
    _append_state zoom_state.

(** The limit checks of [zoom_in] and [zoom_out] (lines 78-87 and
    128-137). *)
Definition check_both (new_index_factor new_value_factor : F)
  : M BetterZoom unit :=
  t <- get ;;
  if is_h (orientation (component t)) then
    if _zoom_limit_reached t new_index_factor X then ret tt
    else if _zoom_limit_reached t new_value_factor Y then ret tt
    else perform_zoom new_index_factor new_value_factor
  else
    if _zoom_limit_reached t new_index_factor Y then ret tt
    else if _zoom_limit_reached t new_value_factor X then ret tt
    else perform_zoom new_index_factor new_value_factor.

Definition zoom_in (factor : F) : M BetterZoom unit :=
  t <- get ;;
  let factor := if feqb factor f0 then zoom_factor t else factor in
  let new_index_factor := _index_factor t * factor in
  let new_value_factor := _value_factor t * factor in
  let new_index_factor :=
    match axis t with AxisValue => _index_factor t | _ => new_index_factor end in
  let new_value_factor :=
    match axis t with AxisIndex => _value_factor t | _ => new_value_factor end in
  check_both new_index_factor new_value_factor.

Definition zoom_out (factor : F) : M BetterZoom unit :=
  t <- get ;;
  let factor := if feqb factor f0 then zoom_factor t else factor in
  new_index_factor <- py_div (_index_factor t) factor ;;
  new_value_factor <- py_div (_value_factor t) factor ;;
  let new_index_factor :=
    match axis t with AxisValue => _index_factor t | _ => new_index_factor end in
  let new_value_factor :=
    match axis t with AxisIndex => _value_factor t | _ => new_value_factor end in
  check_both new_index_factor new_value_factor.

Definition zoom_in_x (factor : F) : M BetterZoom unit :=
  t <- get ;;
  let factor := if feqb factor f0 then zoom_factor t else factor in
  if is_h (orientation (component t)) then
    let new_index_factor := _index_factor t * factor in
    let new_value_factor := _value_factor t in
    if _zoom_limit_reached t new_index_factor X then ret tt
    else perform_zoom new_index_factor new_value_factor
  else
    let new_index_factor := _index_factor t in
    let new_value_factor := _value_factor t * factor in
    if _zoom_limit_reached t new_value_factor X then ret tt
    else perform_zoom new_index_factor new_value_factor.

Definition zoom_out_x (factor : F) : M BetterZoom unit :=
  t <- get ;;
  let factor := if feqb factor f0 then zoom_factor t else factor in
  if is_h (orientation (component t)) then
    new_index_factor <- py_div (_index_factor t) factor ;;
    let new_value_factor := _value_factor t in
    if _zoom_limit_reached t new_index_factor X then ret tt
    else perform_zoom new_index_factor new_value_factor
  else
    let new_index_factor := _index_factor t in
    new_value_factor <- py_div (_value_factor t) factor ;;
    if _zoom_limit_reached t new_value_factor X then ret tt
    else perform_zoom new_index_factor new_value_factor.

Definition zoom_in_y (factor : F) : M BetterZoom unit :=
  t <- get ;;
  let factor := if feqb factor f0 then zoom_factor t else factor in
  if is_v (orientation (component t)) then
    let new_index_factor := _index_factor t * factor in
    let new_value_factor := _value_factor t in
    if _zoom_limit_reached t new_index_factor Y then ret tt
    else perform_zoom new_index_factor new_value_factor
  else
    let new_index_factor := _index_factor t in
    let new_value_factor := _value_factor t * factor in
    if _zoom_limit_reached t new_value_factor Y then ret tt
    else perform_zoom new_index_factor new_value_factor.

Definition zoom_out_y (factor : F) : M BetterZoom unit :=
  t <- get ;;
  let factor := if feqb factor f0 then zoom_factor t else factor in
  if is_v (orientation (component t)) then
    new_index_factor <- py_div (_index_factor t) factor ;;
    let new_value_factor := _value_factor t in
    if _zoom_limit_reached t new_index_factor Y then ret tt
    else perform_zoom new_index_factor new_value_factor
  else
    let new_index_factor := _index_factor t in
    new_value_factor <- py_div (_value_factor t) factor ;;
    if _zoom_limit_reached t new_value_factor Y then ret tt
    else perform_zoom new_index_factor new_value_factor.

(** ** BaseTool interface (lines 371-380) *)

(** What the handler reads and writes of the event. *)
Record MouseEvent : Type := { mouse_wheel : Z; handled : bool }.

Definition set_handled (b : bool) (event : MouseEvent) : MouseEvent :=
  {| mouse_wheel := mouse_wheel event; handled := b |}.

(** [normal_mouse_wheel(event)]; the event after the call is the value
    returned. *)
Definition normal_mouse_wheel (event : MouseEvent)
  : M BetterZoom MouseEvent :=
  t <- get ;;
  if negb (enable_wheel t) then ret event
  else if negb (mouse_wheel event =? 0)%Z then
    (if (mouse_wheel event >? 0)%Z then zoom_in f0 else zoom_out f0) ;;;
    ret (set_handled true event)
  else ret event.

(** ** Vocabulary of the statements about the zoom operations *)

(** The six public zoom methods. *)
Inductive ZoomOp : Type :=
| ZoomIn | ZoomOut | ZoomInX | ZoomOutX | ZoomInY | ZoomOutY.

Definition run_op (op : ZoomOp) : F -> M BetterZoom unit :=
  match op with
  | ZoomIn => zoom_in
  | ZoomOut => zoom_out
  | ZoomInX => zoom_in_x
  | ZoomOutX => zoom_out_x
  | ZoomInY => zoom_in_y
  | ZoomOutY => zoom_out_y
  end.

(** A sequence of calls on the same tool object; a call that raises
    leaves the object in the state it had reached. *)
Fixpoint run_ops (calls : list (ZoomOp * F)) (t : BetterZoom) : BetterZoom :=
  match calls with
  | [] => t
  | (op, factor) :: calls' => run_ops calls' (state_after (run_op op factor t))
  end.

(** The factor a call works with: [zoom_factor] when the argument
    compares equal to 0. *)
Definition effective_factor (t : BetterZoom) (factor : F) : F :=
  if feqb factor f0 then zoom_factor t else factor.

(** Python's [a / b] as a partial function. *)
Definition quotient (a b : F) : option F :=
  if feqb b f0 then None else Some (a / b).

(** The prospective pair [(new_index_factor, new_value_factor)] of a
    call, as the method computes it before any limit check; [None] when
    computing it raises [ZeroDivisionError]. *)
Definition prospective (op : ZoomOp) (factor : F) (t : BetterZoom)
  : option (F * F) :=
  let f := effective_factor t factor in
  let i := _index_factor t in
  let v := _value_factor t in
  let horizontal := is_h (orientation (component t)) in
  let keep (ni nv : F) :=
    (match axis t with AxisValue => i | _ => ni end,
     match axis t with AxisIndex => v | _ => nv end) in
  match op with
  | ZoomIn => Some (keep (i * f) (v * f))
  | ZoomOut =>
      match quotient i f, quotient v f with
      | Some ni, Some nv => Some (keep ni nv)
      | _, _ => None
      end
  | ZoomInX => Some (if horizontal then (i * f, v) else (i, v * f))
  | ZoomOutX =>
      if horizontal
      then option_map (fun ni => (ni, v)) (quotient i f)
      else option_map (fun nv => (i, nv)) (quotient v f)
  | ZoomInY => Some (if horizontal then (i, v * f) else (i * f, v))
  | ZoomOutY =>
      if horizontal
      then option_map (fun nv => (i, nv)) (quotient v f)
      else option_map (fun ni => (ni, v)) (quotient i f)
  end.

(** The factor of a pair that belongs to a screen axis: the index factor
    is the x factor of a horizontal component and the y factor of a
    vertical one. *)
Definition screen_factor (t : BetterZoom) (xy_axis : ScreenAxis)
           (factors : F * F) : F :=
  match xy_axis with
  | X => if is_h (orientation (component t)) then fst factors else snd factors
  | Y => if is_h (orientation (component t)) then snd factors else fst factors
  end.

Definition min_zoom_factor (t : BetterZoom) (xy_axis : ScreenAxis) : F :=
  match xy_axis with X => x_min_zoom_factor t | Y => y_min_zoom_factor t end.

Definition max_zoom_factor (t : BetterZoom) (xy_axis : ScreenAxis) : F :=
  match xy_axis with X => x_max_zoom_factor t | Y => y_max_zoom_factor t end.

(** [factor] lies within (outside) the limits of a screen axis. *)
Definition within (t : BetterZoom) (xy_axis : ScreenAxis) (factor : F) : bool :=
  between (min_zoom_factor t xy_axis) (max_zoom_factor t xy_axis) factor.

Definition outside (t : BetterZoom) (xy_axis : ScreenAxis) (factor : F) : Prop :=
  within t xy_axis factor = false.

(** Both factors of the tool lie within the limits of their screen
    axis. *)
Definition factors_within_limits (t : BetterZoom) : bool :=
  within t X (screen_factor t X (_index_factor t, _value_factor t)) &&
  within t Y (screen_factor t Y (_index_factor t, _value_factor t)).

(** The limit checks a call makes: [zoom_in] and [zoom_out] check both
    screen axes, the four one-axis methods check the axis they zoom. *)
Definition checked (op : ZoomOp) (xy_axis : ScreenAxis) : bool :=
  match op, xy_axis with
  | (ZoomIn | ZoomOut), _ => true
  | (ZoomInX | ZoomOutX), X => true
  | (ZoomInY | ZoomOutY), Y => true
  | _, _ => false
  end.

(** A prospective pair is refused by a call when a factor the call
    checks lies outside its limits. *)
Definition refused (op : ZoomOp) (t : BetterZoom) (factors : F * F) : Prop :=
  (checked op X = true /\ outside t X (screen_factor t X factors)) \/
  (checked op Y = true /\ outside t Y (screen_factor t Y factors)).

(** The same with every call checking both axes. *)
Definition outside_some_limit (t : BetterZoom) (factors : F * F) : Prop :=
  outside t X (screen_factor t X factors) \/
  outside t Y (screen_factor t Y factors).

(** What no method of the tool writes: the settings of the tool and the
    orientation of its component. *)
Definition settings (t : BetterZoom)
  : bool * bool * Axis * (F * F * F * F) * F * Orientation :=
  (enable_wheel t, zoom_to_mouse t, axis t,
   (x_max_zoom_factor t, y_max_zoom_factor t,
    x_min_zoom_factor t, y_min_zoom_factor t),
   zoom_factor t, orientation (component t)).

Definition factors (t : BetterZoom) : F * F :=
  (_index_factor t, _value_factor t).

(** The two ranges the tool mutates. *)
Definition ranges (t : BetterZoom) : Range * Range :=
  (range (index_mapper (component t)), range (value_mapper (component t))).

(** The gate of a call: some factor the call checks is outside its
    limits. *)
Definition gate (op : ZoomOp) (t : BetterZoom) (p : F * F) : bool :=
  (checked op X && negb (within t X (screen_factor t X p))) ||
  (checked op Y && negb (within t Y (screen_factor t Y p))).

(** The settings stay, and the factors stay or become [p]. *)
Definition steps_to (p : F * F) (t t' : BetterZoom) : Prop :=
  settings t' = settings t /\ (factors t' = factors t \/ factors t' = p).

(** A freshly built tool on component [c], with the defaults of the
    class attributes; [e5] and [em5] are the literals [1e5] and [1e-5].
    The pointer position, which the tool learns from mouse moves, starts
    at the origin. *)
Definition new_BetterZoom (e5 em5 : F) (c : Component) : BetterZoom :=
  {| enable_wheel := true; zoom_to_mouse := false; axis := AxisBoth;
     x_max_zoom_factor := e5; y_max_zoom_factor := e5;
     x_min_zoom_factor := em5; y_min_zoom_factor := em5;
     zoom_factor := f2;
     _index_factor := f1; _value_factor := f1;
     _history := [ZoomState (f1, f1) (f1, f1)]; _history_index := 0;
     position := (f0, f0); component := c |}.

(** [BetterZoom(..., x_max_zoom_factor=..., ...)]: a tool with limits of
    the caller's choice. *)
Definition set_zoom_limits (x_max y_max x_min y_min : F) (t : BetterZoom)
  : BetterZoom :=
  {| enable_wheel := enable_wheel t; zoom_to_mouse := zoom_to_mouse t;
     axis := axis t;
     x_max_zoom_factor := x_max; y_max_zoom_factor := y_max;
     x_min_zoom_factor := x_min; y_min_zoom_factor := y_min;
     zoom_factor := zoom_factor t;
     _index_factor := _index_factor t; _value_factor := _value_factor t;
     _history := _history t; _history_index := _history_index t;
     position := position t; component := component t |}.

(** A mapper that maps the screen interval [[low_pos, high_pos]]
    linearly onto its range (the "linear screen/data mapping" of the
    spec), for the examples. *)
Definition linear_mapper (low_pos high_pos lo hi : F) : Mapper :=
  {| range := {| low := lo; high := hi |};
     map_data_with := fun r screen =>
       low r + (screen - low_pos) / (high_pos - low_pos) * (high r - low r) |}.

End Tool.

Arguments Range F : clear implicits.
Arguments Mapper F : clear implicits.
Arguments Component F : clear implicits.
Arguments ToolState F : clear implicits.
Arguments BetterZoom F : clear implicits.

(** ** Concrete tools, on binary64 floats and on exact rationals *)

Section Concrete.

Local Open Scope float_scope.

(** A horizontal 400x300 plot showing [0,1] x [0,10]. *)
Definition plot : Component float :=
  {| orientation := Horizontal; bounds := (400, 300);
     index_mapper := linear_mapper 0 400 0 1;
     value_mapper := linear_mapper 0 300 0 10 |}.

(** [BetterZoom(plot)]. *)
Definition fresh_tool : BetterZoom float := new_BetterZoom 1e5 1e-5 plot.

(** [BetterZoom(plot, y_min_zoom_factor=2.0)]: the value factor, 1.0,
    starts below the lower limit of the y axis. *)
Definition tight_y_tool : BetterZoom float :=
  set_zoom_limits 1e5 1e5 1e-5 2 fresh_tool.

(** A tool zoomed in to the upper limit on both axes. *)
Definition tool_at_max : BetterZoom float := set_factors 1e5 1e5 fresh_tool.

(** The tool after the reset key: [_reset_state_pressed] has reverted
    the history and left it empty, at index 0. *)
Definition reset_tool : BetterZoom float :=
  state_after (reset_state_action fresh_tool).

Local Close Scope float_scope.
Local Open Scope Qc_scope.

(** The range [_zoom_in_mapper] leaves. *)
Definition zoomed (f : Qc) (r : Range Qc) : Range Qc :=
  {| low := (low r + high r) / Q2Qc 2 - (high r - low r) / f / Q2Qc 2;
     high := (low r + high r) / Q2Qc 2 + (high r - low r) / f / Q2Qc 2 |}.

(** The same plot and a fresh tool on it, in exact arithmetic. *)
Definition plot_exact : Component Qc :=
  {| orientation := Horizontal; bounds := (Q2Qc 400, Q2Qc 300);
     index_mapper := linear_mapper 0 (Q2Qc 400) 0 1;
     value_mapper := linear_mapper 0 (Q2Qc 300) 0 (Q2Qc 10) |}.

Definition fresh_tool_exact : BetterZoom Qc :=
  new_BetterZoom (Q2Qc 100000) (Q2Qc (1 # 100000)) plot_exact.

(** A mapper with the range [1, 5]. *)
Definition mapper_1_5 : Mapper Qc :=
  linear_mapper 0 (Q2Qc 400) (Q2Qc 1) (Q2Qc 5).

(** What the tool looks like to the history: factors, ranges, history
    and index. *)
Definition view (t : BetterZoom Qc)
  : (Qc * Qc) * (Range Qc * Range Qc) * list (ToolState Qc) * nat :=
  (factors t, ranges t, _history t, _history_index t).

End Concrete.

End BetterZoom.

(* ================================================================== *)
(** * enthought/chaco2/data_range_2d.py *)
(* ================================================================== *)

(** ** The one-dimensional range the 2-D range is built from *)

Module DataRange1D.

(** A one-dimensional data source, by the identity of the object. *)
Definition DataSource : Type := nat.

Section Range.

Context {F : Type} `{Arith F}.

(** A bound setting: the string ['auto'] or a number. *)
Inductive Setting : Type :=
| auto
| number (v : F).

Definition is_auto (s : Setting) : bool :=
  match s with auto => true | number _ => false end.

(** The attributes of a [DataRange1D] the 2-D range relies on. *)
Record DataRange1D : Type := {
  _low_setting : Setting;
  _high_setting : Setting;
  _low_value : F;
  _high_value : F;
  sources : list DataSource
}.

(** The bounds an 'auto' range takes from its data sources (the bound
    computation of [data_range_1d.py], which reads the data). *)
Variable calc_bounds : Setting -> Setting -> list DataSource -> F * F.

Definition low (r : DataRange1D) : F := _low_value r.
Definition high (r : DataRange1D) : F := _high_value r.
Definition low_setting (r : DataRange1D) : Setting := _low_setting r.
Definition high_setting (r : DataRange1D) : Setting := _high_setting r.

(** Modelled from the spec: [DataRange1D._refresh_bounds] of
    [data_range_1d.py], not among the sources: the "auto-computed
    lower/upper bound pair" is computed from the settings and the data
    sources and becomes the actual bounds. *)
Definition _refresh_bounds (r : DataRange1D) : DataRange1D :=
  let b := calc_bounds (_low_setting r) (_high_setting r) (sources r) in
  {| _low_setting := _low_setting r; _high_setting := _high_setting r;
     _low_value := fst b; _high_value := snd b; sources := sources r |}.

(** Modelled from the spec: [DataRange1D.refresh] of [data_range_1d.py],
    which is not among the sources.  A range is a "user- or
    auto-computed lower/upper bound pair"; in the words
    [DataRange2D.refresh] repeats, "if any of the bounds is 'auto', this
    method refreshes the actual low and high values from the set of the
    view filters' data sources", and "if the user has hard-coded bounds,
    then refresh() doesn't do anything". *)
Definition refresh (r : DataRange1D) : DataRange1D :=
  if negb (is_auto (_low_setting r)) && negb (is_auto (_high_setting r))
  then r
  else _refresh_bounds r.

(** Modelled from the spec: the setter of [low_setting] of
    [data_range_1d.py], not among the sources: the setting is recorded;
    a number becomes the actual bound ("user-set bounds"), 'auto' has
    the bounds recomputed. *)
Definition set_low_setting (val : Setting) (r : DataRange1D) : DataRange1D :=
  match val with
  | auto =>
      refresh {| _low_setting := auto; _high_setting := _high_setting r;
                 _low_value := _low_value r; _high_value := _high_value r;
                 sources := sources r |}
  | number v =>
      {| _low_setting := val; _high_setting := _high_setting r;
         _low_value := v; _high_value := _high_value r;
         sources := sources r |}
  end.

(** Modelled from the spec: the setter of [high_setting], as the one of
    [low_setting] above. *)
Definition set_high_setting (val : Setting) (r : DataRange1D) : DataRange1D :=
  match val with
  | auto =>
      refresh {| _low_setting := _low_setting r; _high_setting := auto;
                 _low_value := _low_value r; _high_value := _high_value r;
                 sources := sources r |}
  | number v =>
      {| _low_setting := _low_setting r; _high_setting := val;
         _low_value := _low_value r; _high_value := v;
         sources := sources r |}
  end.

Definition set_sources (l : list DataSource) (r : DataRange1D) : DataRange1D :=
  {| _low_setting := _low_setting r; _high_setting := _high_setting r;
     _low_value := _low_value r; _high_value := _high_value r;
     sources := l |}.

(** [l.remove(x)] for an [x] that is in [l]: the first occurrence
    goes. *)
Fixpoint remove_first (x : DataSource) (l : list DataSource) : list DataSource :=
  match l with
  | [] => []
  | y :: l' => if Nat.eqb x y then l' else y :: remove_first x l'
  end.

Definition mem (x : DataSource) (l : list DataSource) : bool :=
  existsb (Nat.eqb x) l.

(** Modelled from the spec: [add] of the base class of the ranges
    ([base_data_range.py], not among the sources): a source that is not
    yet in [sources] is appended; the spec has "data-source add/remove
    events" propagated "to range recomputation", so the range is
    refreshed when its sources changed. *)
Definition add (ds : DataSource) (r : DataRange1D) : DataRange1D :=
  if mem ds (sources r) then r
  else refresh (set_sources (sources r ++ [ds]) r).

(** Modelled from the spec: [remove] of the base class of the ranges
    ([base_data_range.py], not among the sources): a source that is in
    [sources] is taken out, and the range is refreshed. *)
Definition remove (ds : DataSource) (r : DataRange1D) : DataRange1D :=
  if mem ds (sources r)
  then refresh (set_sources (remove_first ds (sources r)) r)
  else r.

End Range.

Arguments Setting F : clear implicits.
Arguments DataRange1D F : clear implicits.

End DataRange1D.

(** ** The 2-D range *)

Module DataRange2D.

Import DataRange1D.

(** An image data source of [self.sources]: the object, and the two
    one-dimensional sources it holds as [_xdata] and [_ydata]. *)
Record ImageData : Type := {
  image : nat;
  _xdata : DataSource;
  _ydata : DataSource
}.


Section Range.

Context {F : Type} `{Arith F}.

Variable calc_bounds : Setting F -> Setting F -> list DataSource -> F * F.

(** The attributes of a [DataRange2D].  [observed] is the part of the
    state the attribute framework holds for the object: the sources on
    whose [data_changed] event [self.refresh] is registered. *)
Record DataRange2D : Type := {
  _low_setting : Setting F * Setting F;
  _low_value : F * F;
  _high_setting : Setting F * Setting F;
  _high_value : F * F;
  _xrange : DataRange1D F;
  _yrange : DataRange1D F;
  sources : list ImageData;
  observed : list ImageData
}.

Definition set_private_settings (lo hi : Setting F * Setting F)
           (r : DataRange2D) : DataRange2D :=
  {| _low_setting := lo; _low_value := _low_value r;
     _high_setting := hi; _high_value := _high_value r;
     _xrange := _xrange r; _yrange := _yrange r;
     sources := sources r; observed := observed r |}.

Definition set_xrange (x : DataRange1D F) (r : DataRange2D) : DataRange2D :=
  {| _low_setting := _low_setting r; _low_value := _low_value r;
     _high_setting := _high_setting r; _high_value := _high_value r;
     _xrange := x; _yrange := _yrange r;
     sources := sources r; observed := observed r |}.

Definition set_yrange (y : DataRange1D F) (r : DataRange2D) : DataRange2D :=
  {| _low_setting := _low_setting r; _low_value := _low_value r;
     _high_setting := _high_setting r; _high_value := _high_value r;
     _xrange := _xrange r; _yrange := y;
     sources := sources r; observed := observed r |}.


(** A call of a method of [self._xrange] / [self._yrange]. *)
Definition on_xrange (f : DataRange1D F -> DataRange1D F) : M DataRange2D unit :=
  modify (fun r => set_xrange (f (_xrange r)) r).

Definition on_yrange (f : DataRange1D F -> DataRange1D F) : M DataRange2D unit :=
  modify (fun r => set_yrange (f (_yrange r)) r).



(** *** Property getters (lines 167-196) *)

Definition _get_low (r : DataRange2D) : F * F :=
  (low (_xrange r), low (_yrange r)).

Definition _get_high (r : DataRange2D) : F * F :=
  (high (_xrange r), high (_yrange r)).

Definition _get_low_setting (r : DataRange2D) : Setting F * Setting F :=
  (low_setting (_xrange r), low_setting (_yrange r)).

Definition _get_high_setting (r : DataRange2D) : Setting F * Setting F :=
  (high_setting (_xrange r), high_setting (_yrange r)).

Definition _get_x_range (r : DataRange2D) : DataRange1D F := _xrange r.
Definition _get_y_range (r : DataRange2D) : DataRange1D F := _yrange r.

(** ['auto' in setting], for a pair. *)
Definition auto_in (setting : Setting F * Setting F) : bool :=
  is_auto (fst setting) || is_auto (snd setting).

(** *** AbstractRange interface (lines 82-118) *)

(** numpy's elementwise [a >= c], [a <= c] and [m1 & m2], and
    [transpose] of an array of points. *)
Definition ge_scalar (a : list F) (c : F) : list bool :=
  map (fun x => fleb c x) a.

Definition le_scalar (a : list F) (c : F) : list bool :=
  map (fun x => fleb x c) a.

Fixpoint mask_and (m1 m2 : list bool) : list bool :=
  match m1, m2 with
  | b1 :: m1', b2 :: m2' => (b1 && b2) :: mask_and m1' m2'
  | _, _ => []
  end.

Definition transpose (data : list (F * F)) : list F * list F :=
  (map fst data, map snd data).

(** numpy's [compress(condition, a, axis=0)] for a condition as long as
    the array. *)
Fixpoint compress {A} (condition : list bool) (a : list A) : list A :=
  match condition, a with
  | true :: condition', x :: a' => x :: compress condition' a'
  | false :: condition', _ :: a' => compress condition' a'
  | _, _ => []
  end.

Definition mask_data (r : DataRange2D) (data : list (F * F)) : list bool :=
  let (x_points, y_points) := transpose data in
  let x_mask := mask_and (ge_scalar x_points (fst (_get_low r)))
                         (le_scalar x_points (fst (_get_high r))) in
  let y_mask := mask_and (ge_scalar y_points (snd (_get_low r)))
                         (le_scalar y_points (snd (_get_high r))) in
  mask_and x_mask y_mask.

Definition clip_data (r : DataRange2D) (data : list (F * F)) : list (F * F) :=
  compress (mask_data r data) data.

Definition bound_data (data : list (F * F)) : M DataRange2D (list (F * F)) :=
  raise NotImplementedError.

Local Open Scope py_scope.

Definition _do_set_low_setting (val : Setting F * Setting F)
  : M DataRange2D unit :=
  on_xrange (set_low_setting calc_bounds (fst val)) ;;;
  on_yrange (set_low_setting calc_bounds (snd val)).

Definition _do_set_high_setting (val : Setting F * Setting F)
  : M DataRange2D unit :=
  on_xrange (set_high_setting calc_bounds (fst val)) ;;;
  on_yrange (set_high_setting calc_bounds (snd val)).

Definition set_bounds (low high : Setting F * Setting F) : M DataRange2D unit :=
  _do_set_low_setting low ;;;
  _do_set_high_setting high.

(** *** Public methods (lines 129-160) *)

Definition _refresh_bounds : M DataRange2D unit :=
  on_xrange (DataRange1D.refresh calc_bounds) ;;;
  on_yrange (DataRange1D.refresh calc_bounds).

Definition reset : M DataRange2D unit :=
  modify (fun r => set_private_settings (_low_setting r) (auto, auto) r) ;;;
  modify (fun r => set_private_settings (auto, auto) (_high_setting r) r) ;;;
  _refresh_bounds.

Definition refresh : M DataRange2D unit :=
  r <- get ;;
  if negb (auto_in (_low_setting r)) && negb (auto_in (_high_setting r))
  then ret tt
  else _refresh_bounds.

(** *** Setting the 1-D ranges (lines 198-219) *)

(** The names a statement of [_set_1d_range] can read: the parameters
    and local variables of the method, the names the module binds (its
    imports and its class), and the built-in names the method uses. *)
Definition names_in_scope : list string :=
  ["self"; "dataname"; "oldrange"; "newrange"; "source"; "source1d";
   "ceil"; "floor"; "log";
   "arange"; "array"; "compress"; "concatenate"; "inf"; "ones";
   "transpose"; "zeros";
   "Any"; "Array"; "Delegate"; "Event"; "false"; "CFloat"; "HasTraits";
   "Instance"; "List"; "Property"; "Trait"; "true"; "Tuple";
   "BaseDataRange"; "DataRange1D"; "DataRange2D";
   "getattr"; "None"]%string.

(** Reading a name: [NameError] when nothing binds it. *)
Definition read_name {S} (name : string) : M S unit :=
  if existsb (String.eqb name) names_in_scope then ret tt
  else raise NameError.

(** The 1-D range an [oldrange] argument refers to: [self._xrange] or
    [self._yrange] (the same object, so that removing a source from
    [oldrange] removes it from the range of [self]). *)
Inductive RangeRef : Type := XRange | YRange.

Definition on_range (ref : RangeRef) (f : DataRange1D F -> DataRange1D F)
  : M DataRange2D unit :=
  match ref with XRange => on_xrange f | YRange => on_yrange f end.

(** [_set_1d_range(dataname, oldrange, newrange)]; the value returned is
    [newrange] as the loop leaves it.  The first statement of the loop
    body reads the name [datanamem]; the three tests that follow are
    tests of objects, which are true. *)
Fixpoint _set_1d_range_loop (dataname : ImageData -> DataSource)
         (oldrange : RangeRef) (newrange : DataRange1D F)
         (l : list ImageData) : M DataRange2D (DataRange1D F) :=
  match l with
  | [] => ret newrange
  | source :: l' =>
      read_name "datanamem" ;;;
      let source1d := dataname source in
      on_range oldrange (DataRange1D.remove calc_bounds source1d) ;;;
      _set_1d_range_loop dataname oldrange
        (DataRange1D.add calc_bounds source1d newrange) l'
  end.

Definition _set_1d_range (dataname : ImageData -> DataSource)
           (oldrange : RangeRef) (newrange : DataRange1D F)
  : M DataRange2D (DataRange1D F) :=
  r <- get ;;
  _set_1d_range_loop dataname oldrange newrange (sources r).

Definition _set_x_range (newrange : DataRange1D F) : M DataRange2D unit :=
  newrange <- _set_1d_range _xdata XRange newrange ;;
  modify (set_xrange newrange).

Definition _set_y_range (newrange : DataRange1D F) : M DataRange2D unit :=
  newrange <- _set_1d_range _ydata YRange newrange ;;
  modify (set_yrange newrange).

(** *** Event handlers (lines 225-245) *)






(** *** Vocabulary of the statements about the range *)

(** The point lies in the rectangle: [low[0] <= x <= high[0]] and
    [low[1] <= y <= high[1]]. *)
Definition inside (r : DataRange2D) (point : F * F) : bool :=
  (fleb (fst (_get_low r)) (fst point) && fleb (fst point) (fst (_get_high r))) &&
  (fleb (snd (_get_low r)) (snd point) && fleb (snd point) (snd (_get_high r))).







End Range.

Arguments DataRange2D F : clear implicits.

(** ** Concrete ranges, on binary64 floats *)

Section Concrete.

Local Open Scope float_scope.

(** The bounds of a range that has no data to look at. *)
Definition no_data (low high : Setting float) (l : list DataSource)
  : float * float :=
  (neg_infinity, infinity).

(** [DataRange1D()] and [DataRange2D()]. *)
Definition new_DataRange1D : DataRange1D float :=
  {| DataRange1D._low_setting := auto; DataRange1D._high_setting := auto;
     DataRange1D._low_value := neg_infinity;
     DataRange1D._high_value := infinity;
     DataRange1D.sources := [] |}.

Definition new_DataRange2D : DataRange2D float :=
  {| _low_setting := (auto, auto);
     _low_value := (neg_infinity, neg_infinity);
     _high_setting := (auto, auto);
     _high_value := (infinity, infinity);
     _xrange := new_DataRange1D; _yrange := new_DataRange1D;
     sources := []; observed := [] |}.

(** The range after [set_bounds((0.0, 0.0), (1.0, 1.0))]. *)
Definition unit_square : DataRange2D float :=
  state_after (set_bounds no_data (number 0, number 0) (number 1, number 1)
                          new_DataRange2D).

(** Two image sources, and a range that has the first in its
    [sources]. *)
Definition image_a : ImageData :=
  {| image := 1%nat; _xdata := 10%nat; _ydata := 11%nat |}.

Definition range_of_a : DataRange2D float :=
  {| _low_setting := (auto, auto);
     _low_value := (neg_infinity, neg_infinity);
     _high_setting := (auto, auto);
     _high_value := (infinity, infinity);
     _xrange := DataRange1D.add no_data 10%nat new_DataRange1D;
     _yrange := DataRange1D.add no_data 11%nat new_DataRange1D;
     sources := [image_a]; observed := [image_a] |}.

End Concrete.

End DataRange2D.

(* ================================================================== *)
(** * enthought/chaco2/data_label.py: [draw_arrow] *)
(* ================================================================== *)

Module DataLabel.

Local Open Scope R_scope.

(** Points and vectors of the plane, in exact (real) arithmetic. *)
Definition vec : Type := (R * R)%type.

Definition vsub (a b : vec) : vec := (fst a - fst b, snd a - snd b).
Definition scale (k : R) (a : vec) : vec := (k * fst a, k * snd a).
Definition vdiv (a : vec) (k : R) : vec := (fst a / k, snd a / k).

(** [numpy.linalg.norm] of a vector of the plane. *)
Definition norm (a : vec) : R := sqrt (fst a * fst a + snd a * snd a).

(** Lines 48-49. *)
Definition unit_vec (pt1 pt2 : vec) : vec :=
  let unit_vec := vsub pt2 pt1 in
  vdiv unit_vec (norm unit_vec).

(** Lines 51-59. *)
Definition perp_vec (unit_vec : vec) (arrowhead_size : R) : vec :=
  if Req_dec_T (fst unit_vec) 0 then
    (0.3 * arrowhead_size, 0)
  else if Req_dec_T (snd unit_vec) 0 then
    (0, 0.3 * arrowhead_size)
  else
    let slope := snd unit_vec / fst unit_vec in
    let perp_slope := - 1 / slope in
    let perp_vec := (1, perp_slope) in
    scale (0.3 * arrowhead_size / norm perp_vec) perp_vec.



End DataLabel.

(* ================================================================== *)
(** * enthought/chaco2/examples/updating_plot/updating_plot5.py *)
(* ================================================================== *)

Module UpdatingPlot.

Local Open Scope Z_scope.

Definition PLOT_SIZE : Z := 250.

Section Animated.

(** The type of the numbers plotted. *)
Variable A : Type.

(** Python's [a[:stop]] for an integer [stop] of any sign. *)
Definition slice_to (stop : Z) (a : list A) : list A :=
  if 0 <=? stop then firstn (Z.to_nat stop) a
  else firstn (length a - Z.to_nat (- stop)) a.

(** An [AnimatedPlot]: the attributes [timer_tick] reads and writes, and
    the arrays held by the data sources [plot.index] and [plot.value]. *)
Record AnimatedPlot : Type := {
  x_values : list A;
  y_values : list A;
  numpoints : Z;
  current_index : Z;
  increment : Z;
  plot_index : list A;
  plot_value : list A
}.

(** [AnimatedPlot(x, y)] (lines 29-53); [x] is the array given, or the
    array of the data source given.  [/] on two ints is Python 2's floor
    division. *)
Definition new_AnimatedPlot (x y : list A) : AnimatedPlot :=
  let numpoints := Z.of_nat (length x) in
  {| x_values := x; y_values := y;
     numpoints := numpoints;
     current_index := numpoints / 2;
     increment := 2;
     plot_index := x; plot_value := y |}.

(** [timer_tick] (lines 55-65). *)
Definition timer_tick (self : AnimatedPlot) : AnimatedPlot :=
  let increment :=
    if current_index self <=? numpoints self / 3 then 2
    else if current_index self =? numpoints self then - 2
    else increment self in
  let current_index := current_index self + increment in
  let current_index :=
    if current_index >? numpoints self then numpoints self
    else current_index in
  {| x_values := x_values self; y_values := y_values self;
     numpoints := numpoints self;
     current_index := current_index;
     increment := increment;
     plot_index := slice_to current_index (x_values self);
     plot_value := slice_to current_index (y_values self) |}.

(** [k] timer events. *)
Definition ticks (k : nat) (self : AnimatedPlot) : AnimatedPlot :=
  Nat.iter k timer_tick self.

(** The index swings between a third of the points (less one) and all
    of them, by steps of two. *)
Definition swings (self : AnimatedPlot) : Prop :=
  0 <= numpoints self /\
  numpoints self / 3 - 1 <= current_index self <= numpoints self /\
  (increment self = 2 \/ increment self = - 2).

End Animated.

(** The position [_create_window] gives plot [i] (lines 104-105). *)
Definition plot_position (i : Z) : Z * Z :=
  (50 + (i mod 3) * (PLOT_SIZE + 50), 50 + (i / 3) * (PLOT_SIZE + 50)).

(** The squares of two plots, [PLOT_SIZE] wide and high, are at least
    [gap] apart along x or along y. *)
Definition apart (gap : Z) (pos1 pos2 : Z * Z) : Prop :=
  fst pos1 + PLOT_SIZE + gap <= fst pos2 \/
  fst pos2 + PLOT_SIZE + gap <= fst pos1 \/
  snd pos1 + PLOT_SIZE + gap <= snd pos2 \/
  snd pos2 + PLOT_SIZE + gap <= snd pos1.

End UpdatingPlot.

(* ================================================================== *)
(** * enthought/chaco2/data_label.py: the layout of the label *)
(* ================================================================== *)

Module LabelLayout.

Local Open Scope string_scope.
Local Open Scope list_scope.

(** Python's [sub in s] for two strings. *)
Fixpoint contains (sub s : string) : bool :=
  String.prefix sub s ||
  match s with
  | EmptyString => false
  | String _ s' => contains sub s'
  end.

(** The values of [LabelPositionTrait]. *)
Definition LabelPositionTrait : list string :=
  ["top right"; "bottom"; "left"; "right"; "top"; "top left";
   "bottom left"; "bottom right"; "center"].

(** The four attributes [_do_layout] assigns. *)
Inductive Attr : Type := attr_x | attr_y | attr_outer_x | attr_outer_y.

Definition Attr_eqb (a b : Attr) : bool :=
  match a, b with
  | attr_x, attr_x | attr_y, attr_y
  | attr_outer_x, attr_outer_x | attr_outer_y, attr_outer_y => true
  | _, _ => false
  end.

Section Label.

Context {F : Type} `{Arith F}.

Local Open Scope arith_scope.

(** The sizes of the label, as [ToolTip._do_layout] has left them. *)
Record Box : Type := {
  width : F;
  height : F;
  outer_width : F;
  outer_height : F
}.

(** [DataLabel._do_layout] (lines 199-226): the assignments to the
    position attributes of the label, in the order the method makes
    them; [None] when the method returns at its first test (no
    component, or a component without [map_screen]), otherwise the
    method ends by setting [_cached_arrow = None].  [screen_coords] is
    what [component.map_screen(data_point)] returned. *)
Definition _do_layout (component_maps : bool) (label_position : string)
           (screen_coords : F * F) (self : Box) : option (list (Attr * F)) :=
  if negb component_maps then None
  else
    let (sx, sy) := screen_coords in
    let orientation := label_position in
    Some
      ((if contains "left" orientation || contains "right" orientation then
          (if negb (contains " " orientation)
           then [(attr_y, sy - height self / f2)] else []) ++
          (if contains "left" orientation
           then [(attr_outer_x, sx - outer_width self - f1)]
           else if contains "right" orientation
                then [(attr_outer_x, sx)] else [])
        else []) ++
       (if contains "top" orientation || contains "bottom" orientation then
          (if negb (contains " " orientation)
           then [(attr_x, sx - width self / f2)] else []) ++
          (if contains "bottom" orientation
           then [(attr_outer_y, sy - outer_height self - f1)]
           else if contains "top" orientation
                then [(attr_outer_y, sy)] else [])
        else []) ++
       (if String.eqb orientation "center"
        then [(attr_x, sx - width self / f2); (attr_y, sy - height self / f2)]
        else [])).

(** How often a run of the method assigns an attribute. *)
Definition assignments (a : Attr) (writes : option (list (Attr * F))) : nat :=
  match writes with
  | None => 0
  | Some ws => length (filter (fun w => Attr_eqb a (fst w)) ws)
  end.

End Label.

Arguments Box F : clear implicits.

End LabelLayout.

(* ================================================================== *)
(** * examples/shell/dates.py *)
(* ================================================================== *)

Module Dates.

Local Open Scope Qc_scope.

(** The rational number of a natural number. *)
Definition of_nat (n : nat) : Qc := Q2Qc (inject_Z (Z.of_nat n)).

(** numpy's [linspace(start, stop, num)], with the end point included,
    in exact arithmetic. *)
Definition linspace (start stop : Qc) (num : nat) : list Qc :=
  match num with
  | O => []
  | S O => [start]
  | S div =>
      let step := (stop - start) / of_nat div in
      map (fun i => start + of_nat i * step) (seq 0 num)
  end.

(** Lines 13-15, for any number of points, any [dt] and any time
    [now]. *)
Definition dates (numpoints : nat) (dt now : Qc) : list Qc :=
  linspace now (now + of_nat numpoints * dt) numpoints.

(** The script's [numpoints] and [dt]. *)
Definition numpoints : nat := 100.
Definition dt : Qc := Q2Qc (inject_Z (24 * 3600)).

End Dates.

(* ================================================================== *)
(** * A range with user-set bounds, in exact arithmetic *)
(* ================================================================== *)

Module RangeTerms.

Import DataRange1D DataRange2D.

Local Open Scope Qc_scope.

(** A 1-D range whose two bounds were set to numbers. *)
Definition set_range_1d (lo hi : Qc) : DataRange1D Qc :=
  {| DataRange1D._low_setting := number lo;
     DataRange1D._high_setting := number hi;
     DataRange1D._low_value := lo;
     DataRange1D._high_value := hi;
     DataRange1D.sources := [] |}.

(** [DataRange2D()] after [set_bounds((lx, ly), (hx, hy))]. *)
Definition set_range_2d (lx ly hx hy : Qc) : DataRange2D Qc :=
  {| _low_setting := (auto, auto);
     _low_value := (lx, ly);
     _high_setting := (auto, auto);
     _high_value := (hx, hy);
     _xrange := set_range_1d lx hx; _yrange := set_range_1d ly hy;
     sources := []; observed := [] |}.

End RangeTerms.

(* ================================================================== *)
(** * More vocabulary for the zoom tool *)
(* ================================================================== *)

Module ZoomTerms.

Import BetterZoom.

Section Tool.

Context {F : Type} `{Arith F}.

(** [BetterZoom(..., zoom_factor=z)]. *)
Definition set_zoom_factor (z : F) (t : BetterZoom F) : BetterZoom F :=
  {| enable_wheel := enable_wheel t; zoom_to_mouse := zoom_to_mouse t;
     axis := axis t;
     x_max_zoom_factor := x_max_zoom_factor t;
     y_max_zoom_factor := y_max_zoom_factor t;
     x_min_zoom_factor := x_min_zoom_factor t;
     y_min_zoom_factor := y_min_zoom_factor t;
     zoom_factor := z;
     _index_factor := _index_factor t; _value_factor := _value_factor t;
     _history := _history t; _history_index := _history_index t;
     position := position t; component := component t |}.

(** [BetterZoom(..., axis=a)]. *)
Definition set_axis (a : Axis) (t : BetterZoom F) : BetterZoom F :=
  {| enable_wheel := enable_wheel t; zoom_to_mouse := zoom_to_mouse t;
     axis := a;
     x_max_zoom_factor := x_max_zoom_factor t;
     y_max_zoom_factor := y_max_zoom_factor t;
     x_min_zoom_factor := x_min_zoom_factor t;
     y_min_zoom_factor := y_min_zoom_factor t;
     zoom_factor := zoom_factor t;
     _index_factor := _index_factor t; _value_factor := _value_factor t;
     _history := _history t; _history_index := _history_index t;
     position := position t; component := component t |}.

(** The three methods that divide by the factor. *)
Definition divides (op : ZoomOp) : bool :=
  match op with
  | ZoomOut | ZoomOutX | ZoomOutY => true
  | ZoomIn | ZoomInX | ZoomInY => false
  end.

(** The method a wheel event calls. *)
Definition wheel_op (event : MouseEvent) : ZoomOp :=
  if (mouse_wheel event >? 0)%Z then ZoomIn else ZoomOut.

(** The flag [event.handled] after a call of a handler on [event]: the
    flag of the event the call returned, or, when the call raised, the
    flag the event had. *)
Definition handled_after (event : MouseEvent)
           (r : outcome MouseEvent * BetterZoom F) : bool :=
  match result_of r with
  | Returned event' => handled event'
  | Raised _ => handled event
  end.

(** [normal_mouse_wheel(event)] on tool [t] performs the call [zoom]:
    when [zoom] returns, the handler returns with the tool as [zoom]
    left it and the event marked handled; when [zoom] raises, the
    exception leaves the handler, with the tool as [zoom] left it and
    the event's flag as it was. *)
Definition wheel_performs (event : MouseEvent) (t : BetterZoom F)
           (zoom : M (BetterZoom F) unit) : Prop :=
  (forall t', zoom t = (Returned tt, t') ->
     normal_mouse_wheel event t = (Returned (set_handled true event), t') /\
     handled_after event (normal_mouse_wheel event t) = true) /\
  (forall e t', zoom t = (Raised e, t') ->
     normal_mouse_wheel event t = (Raised e, t') /\
     handled_after event (normal_mouse_wheel event t) = handled event).


(** The factor [zoom_in] and [zoom_out] leave alone under an [axis]
    restriction: the value factor for ['index'], the index factor for
    ['value']. *)
Definition kept_factor (a : Axis) (factors : F * F) : option F :=
  match a with
  | AxisBoth => None
  | AxisIndex => Some (snd factors)
  | AxisValue => Some (fst factors)
  end.

End Tool.

Section Concrete.

Local Open Scope float_scope.

(** [BetterZoom(plot, zoom_factor=0.0)]. *)
Definition zero_factor_tool : BetterZoom float :=
  set_zoom_factor 0 fresh_tool.

(** [BetterZoom(plot, axis='index')]. *)
Definition index_only_tool : BetterZoom float :=
  set_axis AxisIndex fresh_tool.

(** One notch of the wheel, up and down, on an event not yet handled. *)
Definition wheel_up : MouseEvent := {| mouse_wheel := 1; handled := false |}.
Definition wheel_down : MouseEvent :=
  {| mouse_wheel := - 1; handled := false |}.

End Concrete.

End ZoomTerms.

(* ================================================================== *)
(** * Properties of the zoom tool *)
(* ================================================================== *)

Module ZoomFacts.

Import BetterZoom.

Section Generic.

Context {F : Type} `{Arith F}.

Local Open Scope py_scope.

Lemma _zoom_limit_reached_within (t : BetterZoom F) (factor : F) (a : ScreenAxis) :
  _zoom_limit_reached t factor a = negb (within t a factor).
Proof.
  destruct a; unfold _zoom_limit_reached, within, between; simpl;
    match goal with |- context [if ?c then _ else _] => destruct c end;
    reflexivity.
Qed.

(** Every zoom method is: compute the prospective factors, return at
    once when the gate refuses them, otherwise hand them to the shared
    tail. *)
Lemma run_op_shape (op : ZoomOp) (factor : F) (t : BetterZoom F) :
  run_op op factor t =
  match prospective op factor t with
  | None => (Raised ZeroDivisionError, t)
  | Some p =>
      if gate op t p then (Returned tt, t)
      else perform_zoom (fst p) (snd p) t
  end.
Proof.
  destruct op; cbv [run_op];
    unfold zoom_in, zoom_out, zoom_in_x, zoom_out_x, zoom_in_y, zoom_out_y,
      check_both, prospective, quotient, gate, effective_factor, py_div,
      bind, get, ret, raise;
    repeat first
      [ progress cbv beta iota zeta
      | progress cbv [checked screen_factor is_h is_v option_map fst snd
                      andb orb negb]
      | rewrite _zoom_limit_reached_within
      | match goal with
        | E : ?x = _ |- context [?x] => rewrite E
        end
      | match goal with
        | |- context [orientation (component t)] =>
            destruct (orientation (component t)) eqn:?
        | |- context [feqb factor f0] => destruct (feqb factor f0) eqn:?
        | |- context [feqb (zoom_factor t) f0] =>
            destruct (feqb (zoom_factor t) f0) eqn:?
        | |- context [within ?a ?b ?c] => destruct (within a b c) eqn:?
        end ];
    reflexivity.
Qed.


(** *** What a call may change *)

Lemma transition_bind {S A B} (R : S -> S -> Prop) (c : M S A) (k : A -> M S B) :
  (forall s1 s2 s3, R s1 s2 -> R s2 s3 -> R s1 s3) ->
  transition R c -> (forall a, transition R (k a)) -> transition R (bind c k).
Proof.
  intros Htrans Hc Hk s. unfold bind, state_after in *.
  specialize (Hc s). destruct (c s) as [[a | e] s1]; cbn [snd] in *.
  - exact (Htrans _ _ _ Hc (Hk a s1)).
  - exact Hc.
Qed.

Lemma transition_when {S} (R : S -> S -> Prop) (b : bool) (c : M S unit) :
  (forall s, R s s) -> transition R c -> transition R (when b c).
Proof. intros Hrefl Hc. destruct b; [exact Hc | intro s; apply Hrefl]. Qed.

Lemma transition_py_div {S} (R : S -> S -> Prop) (a b : F) :
  (forall s, R s s) -> transition R (py_div (S := S) a b).
Proof.
  intros Hrefl s. unfold py_div. destruct (feqb b f0); apply Hrefl.
Qed.

Lemma steps_to_refl (p : F * F) (t : BetterZoom F) : steps_to p t t.
Proof. split; [reflexivity | left; reflexivity]. Qed.

Lemma steps_to_trans (p : F * F) (t1 t2 t3 : BetterZoom F) :
  steps_to p t1 t2 -> steps_to p t2 t3 -> steps_to p t1 t3.
Proof.
  intros [Hs1 Hf1] [Hs2 Hf2]. split; [congruence | ].
  destruct Hf2 as [Hf2 | Hf2]; [ | right; exact Hf2].
  destruct Hf1 as [Hf1 | Hf1]; [left | right]; congruence.
Qed.

Lemma on_index_mapper_steps {A} (p : F * F) (c : M (Mapper F) A) :
  transition (steps_to p) (on_index_mapper c).
Proof.
  intro t. unfold on_index_mapper, zoom_on, state_after.
  destruct (c (index_mapper (component t))) as [r m].
  split; [reflexivity | left; reflexivity].
Qed.

Lemma on_value_mapper_steps {A} (p : F * F) (c : M (Mapper F) A) :
  transition (steps_to p) (on_value_mapper c).
Proof.
  intro t. unfold on_value_mapper, zoom_on, state_after.
  destruct (c (value_mapper (component t))) as [r m].
  split; [reflexivity | left; reflexivity].
Qed.

Lemma apply_ZoomState_steps (prev next : F * F) :
  transition (steps_to next) (apply (ZoomState prev next)).
Proof.
  cbn [apply].
  repeat first
    [ apply transition_bind; [apply steps_to_trans | | intro]
    | apply transition_when; [apply steps_to_refl | ]
    | apply transition_py_div; apply steps_to_refl
    | apply on_index_mapper_steps
    | apply on_value_mapper_steps ].
  intro t. split; [reflexivity | right]. destruct next; reflexivity.
Qed.

Lemma apply_PanState_steps (p prev next : F * F) :
  transition (steps_to p) (apply (PanState prev next)).
Proof.
  cbn [apply].
  repeat first
    [ apply transition_bind; [apply steps_to_trans | | intro]
    | apply transition_when; [apply steps_to_refl | ]
    | apply on_index_mapper_steps
    | apply on_value_mapper_steps ].
Qed.

Lemma _append_state_steps (p : F * F) (s : ToolState F) :
  transition (steps_to p) (_append_state s).
Proof. intro t. split; [reflexivity | left; reflexivity]. Qed.

(** The shared tail of the zoom methods leaves the settings alone, and
    leaves the factors as they were or sets them to the pair it was
    given. *)
Lemma perform_zoom_steps (ni nv : F) :
  transition (steps_to (ni, nv)) (perform_zoom ni nv).
Proof.
  unfold perform_zoom.
  apply transition_bind; [apply steps_to_trans | intro; apply steps_to_refl | ].
  intro t. destruct (zoom_to_mouse t); cbv zeta.
  - apply transition_bind;
      [apply steps_to_trans | | intro; apply _append_state_steps].
    cbn [apply].
    apply transition_bind; [apply steps_to_trans | | intro].
    + apply apply_PanState_steps.
    + apply transition_bind; [apply steps_to_trans | | intro].
      * apply (apply_ZoomState_steps (_index_factor t, _value_factor t) (ni, nv)).
      * intro t'. apply steps_to_refl.
  - apply transition_bind;
      [apply steps_to_trans | | intro; apply _append_state_steps].
    apply apply_ZoomState_steps.
Qed.

(** *** The limits *)

(** An axis a call does not check is an axis whose factor the call does
    not change. *)
Lemma prospective_unchecked (op : ZoomOp) (factor : F) (t : BetterZoom F)
      (p : F * F) (a : ScreenAxis) :
  prospective op factor t = Some p ->
  checked op a = false ->
  screen_factor t a p = screen_factor t a (factors t).
Proof.
  unfold prospective, screen_factor, factors, quotient.
  destruct op, a; cbn [checked]; try discriminate; intros Hp _;
    destruct (orientation (component t)); cbn [is_h option_map] in *;
    try destruct (feqb (effective_factor t factor) f0);
    cbn [option_map] in Hp; inversion Hp; reflexivity.
Qed.

(** Whether the factors are within the limits is a matter of the
    settings and of the factors. *)
Lemma factors_within_limits_eq (t t' : BetterZoom F) :
  settings t' = settings t ->
  factors_within_limits t' =
  within t X (screen_factor t X (factors t')) &&
  within t Y (screen_factor t Y (factors t')).
Proof.
  unfold settings, factors_within_limits, within, screen_factor, factors,
    min_zoom_factor, max_zoom_factor.
  intro Hs. inversion Hs. reflexivity.
Qed.

Lemma gate_open_within (op : ZoomOp) (factor : F) (t : BetterZoom F) (p : F * F) :
  prospective op factor t = Some p ->
  gate op t p = false ->
  factors_within_limits t = true ->
  within t X (screen_factor t X p) && within t Y (screen_factor t Y p) = true.
Proof.
  intros Hp Hgate Hin.
  rewrite (factors_within_limits_eq (t := t) (t' := t) eq_refl) in Hin.
  apply andb_true_iff in Hin. destruct Hin as [HX HY].
  unfold gate in Hgate. apply orb_false_iff in Hgate.
  destruct Hgate as [GX GY].
  apply andb_true_iff; split.
  - destruct (checked op X) eqn:C.
    + cbn [andb] in GX. apply negb_false_iff in GX. exact GX.
    + rewrite (prospective_unchecked op factor t X Hp C). exact HX.
  - destruct (checked op Y) eqn:C.
    + cbn [andb] in GY. apply negb_false_iff in GY. exact GY.
    + rewrite (prospective_unchecked op factor t Y Hp C). exact HY.
Qed.

(** One call keeps the settings, and keeps the factors within the
    limits. *)
Lemma run_op_keeps_limits (op : ZoomOp) (factor : F) (t : BetterZoom F) :
  factors_within_limits t = true ->
  factors_within_limits (state_after (run_op op factor t)) = true.
Proof.
  intro Hin. rewrite run_op_shape.
  destruct (prospective op factor t) as [p | ] eqn:Hp; [ | exact Hin].
  destruct (gate op t p) eqn:Hgate; [exact Hin | ].
  destruct (perform_zoom_steps (fst p) (snd p) t) as [Hs Hf].
  rewrite (factors_within_limits_eq Hs).
  destruct Hf as [Hf | Hf]; rewrite Hf.
  - rewrite <- (factors_within_limits_eq (t := t) (t' := t) eq_refl). exact Hin.
  - rewrite <- surjective_pairing.
    exact (gate_open_within op factor t Hp Hgate Hin).
Qed.

Lemma run_ops_keep_limits (calls : list (ZoomOp * F)) (t : BetterZoom F) :
  factors_within_limits t = true ->
  factors_within_limits (run_ops calls t) = true.
Proof.
  revert t. induction calls as [ | [op factor] calls IH]; intros t Hin.
  - exact Hin.
  - cbn [run_ops]. apply IH. apply run_op_keeps_limits. exact Hin.
Qed.

(** A refused pair closes the gate. *)
Lemma refused_gate (op : ZoomOp) (t : BetterZoom F) (p : F * F) :
  refused op t p -> gate op t p = true.
Proof.
  unfold refused, outside, gate.
  intros [[C O] | [C O]]; rewrite C, O; cbn [andb negb];
    [reflexivity | apply orb_true_r].
Qed.


(** *** The claim about the limits *)

(** C1 (amended): a call whose prospective factors are refused -- for
    [zoom_in] and [zoom_out] a factor outside the limits of either
    screen axis, for the one-axis methods a factor outside the limits of
    the axis they zoom -- returns with the tool (factors, history,
    mapper ranges) unchanged; and from factors within the limits, the
    factors are within the limits of their screen axes after any
    sequence of zoom calls. *)
Theorem zoom_limits_hold :
  (forall (op : ZoomOp) (factor : F) (t : BetterZoom F) (p : F * F),
      prospective op factor t = Some p ->
      refused op t p ->
      run_op op factor t = (Returned tt, t)) /\
  (forall (calls : list (ZoomOp * F)) (t : BetterZoom F),
      factors_within_limits t = true ->
      factors_within_limits (run_ops calls t) = true).
Proof.
  split.
  - intros op factor t p Hp Hr.
    rewrite run_op_shape, Hp, (refused_gate Hr). reflexivity.
  - exact run_ops_keep_limits.
Qed.

(** *** Moving in the history *)

Lemma _append_state_eq (s : ToolState F) (t : BetterZoom F) :
  _append_state s t =
  (Returned tt,
   set_history (firstn (S (_history_index t)) (_history t) ++ [s])
               (length (firstn (S (_history_index t)) (_history t) ++ [s]) - 1)
               t).
Proof. reflexivity. Qed.

Lemma appended_last (s : ToolState F) (hist : list (ToolState F)) (idx : nat) :
  (idx < length hist)%nat ->
  (length (firstn (S idx) hist ++ [s]) - 1 = S idx)%nat /\
  nth_error (firstn (S idx) hist ++ [s]) (S idx) = Some s.
Proof.
  intro Hidx.
  assert (Hlen : length (firstn (S idx) hist) = S idx)
    by (apply firstn_length_le; lia).
  split.
  - rewrite length_app, Hlen. cbn [length]. lia.
  - rewrite nth_error_app2 by lia. rewrite Hlen, Nat.sub_diag. reflexivity.
Qed.

(** Going back from a positive index reverts the state that follows the
    new index. *)
Lemma prev_state_action_eq (t : BetterZoom F) (s : ToolState F) (idx : nat) :
  _history_index t = S idx ->
  nth_error (_history t) (S idx) = Some s ->
  prev_state_action t = revert s (set_history (_history t) idx t).
Proof.
  intros Hi Hs. unfold prev_state_action. unfold bind at 1, get. cbv beta iota.
  rewrite Hi. cbn [Nat.ltb Nat.leb when]. unfold bind at 1, modify.
  cbv beta iota. rewrite Hi. cbn [Nat.sub].
  unfold _prev_state_pressed, bind, get.
  cbn [_history _history_index set_history].
  rewrite Nat.sub_0_r, Hs. reflexivity.
Qed.

(** Going forward when a state follows the index applies that state. *)
Lemma next_state_action_eq (t : BetterZoom F) (s : ToolState F) :
  nth_error (_history t) (S (_history_index t)) = Some s ->
  next_state_action t
  = apply s (set_history (_history t) (S (_history_index t)) t).
Proof.
  intro Hs. unfold next_state_action. unfold bind at 1, get. cbv beta iota.
  assert (Hlen : (S (_history_index t) < length (_history t))%nat).
  { apply nth_error_Some. rewrite Hs. discriminate. }
  assert (Hle : (Z.of_nat (_history_index t)
                 <=? Z.of_nat (length (_history t)) - 2)%Z = true)
    by (apply Z.leb_le; lia).
  rewrite Hle. cbn [when]. unfold bind at 1, modify. cbv beta iota.
  unfold _next_state_pressed, _current_state, bind, get.
  cbn [_history _history_index set_history]. rewrite Hs. reflexivity.
Qed.

(** *** The mouse wheel *)

(** The branches of [normal_mouse_wheel]: with [enable_wheel] off, or a
    zero [mouse_wheel], it returns at once; otherwise it runs
    [zoom_in()] or [zoom_out()] and then the assignment
    [event.handled = True]. *)
Lemma normal_mouse_wheel_cases (event : MouseEvent) (t : BetterZoom F) :
  (enable_wheel t = false ->
   normal_mouse_wheel event t = (Returned event, t)) /\
  (enable_wheel t = true -> (mouse_wheel event > 0)%Z ->
   normal_mouse_wheel event t =
   (zoom_in f0 ;;; ret (set_handled true event)) t) /\
  (enable_wheel t = true -> (mouse_wheel event < 0)%Z ->
   normal_mouse_wheel event t =
   (zoom_out f0 ;;; ret (set_handled true event)) t) /\
  (enable_wheel t = true -> mouse_wheel event = 0%Z ->
   normal_mouse_wheel event t = (Returned event, t)).
Proof.
  assert (E : normal_mouse_wheel event t =
              (if negb (enable_wheel t) then ret event
               else if negb (mouse_wheel event =? 0)%Z
                    then (if (mouse_wheel event >? 0)%Z
                          then zoom_in f0 else zoom_out f0) ;;;
                         ret (set_handled true event)
                    else ret event) t) by reflexivity.
  rewrite E; clear E.
  repeat split; intro Hwheel; rewrite Hwheel; cbn [negb]; try reflexivity.
  - intro Hpos.
    assert (Hne : (mouse_wheel event =? 0)%Z = false) by (apply Z.eqb_neq; lia).
    assert (Hgt : (mouse_wheel event >? 0)%Z = true) by (apply Z.gtb_lt; lia).
    rewrite Hne, Hgt. reflexivity.
  - intro Hneg.
    assert (Hne : (mouse_wheel event =? 0)%Z = false) by (apply Z.eqb_neq; lia).
    assert (Hgt : (mouse_wheel event >? 0)%Z = false).
    { rewrite Z.gtb_ltb. apply Z.ltb_ge. lia. }
    rewrite Hne, Hgt. reflexivity.
  - intro Hzero. rewrite Hzero. reflexivity.
Qed.

End Generic.

(** *** On concrete tools, in binary64 *)

Local Open Scope float_scope.

(** C1, counterexample: on [tight_y_tool], [zoom_in_x(2.0)] has the
    prospective factors (2.0, 1.0); the one of the y axis, 1.0, lies
    outside [2.0, 1e5]; yet the call zooms (it checks the x axis
    only): the index factor becomes 2.0 and the index range [0.25,
    0.75]. *)
Lemma zoom_in_x_ignores_y_limit :
  prospective ZoomInX 2 tight_y_tool = Some (2, 1) /\
  outside_some_limit tight_y_tool (2, 1) /\
  factors (state_after (zoom_in_x 2 tight_y_tool)) = (2, 1) /\
  fst (ranges (state_after (zoom_in_x 2 tight_y_tool))) =
    {| low := 0.25; high := 0.75 |} /\
  run_op ZoomInX 2 tight_y_tool <> (Returned tt, tight_y_tool).
Proof.
  split; [vm_compute; reflexivity | ].
  split; [right; vm_compute; reflexivity | ].
  split; [vm_compute; reflexivity | ].
  split; [vm_compute; reflexivity | ].
  intro Heq.
  apply (f_equal (fun r => PrimFloat.eqb (_index_factor (state_after r)) 1)) in Heq.
  vm_compute in Heq. discriminate Heq.
Qed.

(** C1, witness: at the upper limit [zoom_in(2.0)] is refused, and a
    sequence of calls from a fresh tool ends within the limits. *)
Lemma zoom_limits_hold_witness :
  run_op ZoomIn 2 tool_at_max = (Returned tt, tool_at_max) /\
  factors_within_limits
    (run_ops [(ZoomIn, 0); (ZoomOutX, 3); (ZoomInY, 1e5); (ZoomOut, 1e5);
              (ZoomOut, 7); (ZoomInX, 0.1)] fresh_tool) = true.
Proof.
  split.
  - apply (proj1 zoom_limits_hold ZoomIn 2 tool_at_max (2e5, 2e5)).
    + vm_compute. reflexivity.
    + left. split; vm_compute; reflexivity.
  - apply (proj2 zoom_limits_hold). vm_compute. reflexivity.
Defined.

(** *** Undo after a reset *)

(** C2, failing input: on a tool whose history was reset, [zoom_in(2.0)]
    passes the limit check and appends its state, which becomes the only
    entry of the history, at index 0; the previous-state action, which
    needs a positive index, then changes nothing: the factors stay
    (2.0, 2.0) and the ranges stay zoomed, where the tool had factors
    (1.0, 1.0) and ranges [0,1] and [0,10] before the zoom. *)
Theorem undo_after_reset_is_lost :
  _history reset_tool = [] /\ _history_index reset_tool = 0%nat /\
  factors reset_tool = (1, 1) /\
  ranges reset_tool = ({| low := 0; high := 1 |}, {| low := 0; high := 10 |}) /\
  result_of (zoom_in 2 reset_tool) = Returned tt /\
  _history (state_after (zoom_in 2 reset_tool)) = [ZoomState (1, 1) (2, 2)] /\
  _history_index (state_after (zoom_in 2 reset_tool)) = 0%nat /\
  prev_state_action (state_after (zoom_in 2 reset_tool)) =
    (Returned tt, state_after (zoom_in 2 reset_tool)) /\
  factors (state_after (zoom_in 2 reset_tool)) = (2, 2) /\
  ranges (state_after (zoom_in 2 reset_tool)) =
    ({| low := 0.25; high := 0.75 |}, {| low := 2.5; high := 7.5 |}).
Proof.
  repeat split; vm_compute; reflexivity.
Qed.

(** *** Remarks on binary64 *)

(** A NaN factor is refused: it compares below no limit. *)
Lemma nan_factor_is_refused :
  zoom_in nan fresh_tool = (Returned tt, fresh_tool).
Proof. vm_compute. reflexivity. Qed.

(** With the limits set to plus and minus infinity, as the comments of
    the class suggest for "no limit", every factor but NaN passes. *)
Lemma infinite_limits_refuse_nothing :
  factors (state_after
             (zoom_in 1e300
                (set_zoom_limits infinity infinity neg_infinity neg_infinity
                                 fresh_tool)))
  = (1e300, 1e300).
Proof. vm_compute. reflexivity. Qed.

(** The arithmetic of undo is exact only up to rounding: zooming a fresh
    tool by 3 and going back restores the factors, and the index range
    [0, 1] up to one unit in the last place. *)
Lemma undo_rounds_in_binary64 :
  factors (state_after (prev_state_action (state_after (zoom_in 3 fresh_tool))))
  = (1, 1) /\
  fst (ranges (state_after
                 (prev_state_action (state_after (zoom_in 3 fresh_tool)))))
  = {| low := 1.1102230246251565e-16; high := 0.99999999999999989 |}.
Proof. split; vm_compute; reflexivity. Qed.

(** *** Exact arithmetic *)

Local Close Scope float_scope.
Local Open Scope Qc_scope.

Lemma Qc_two : Q2Qc 2 = 1 + 1.
Proof. apply Qc_is_canon. reflexivity. Qed.

Lemma Qc_eq_bool_neq (x y : Qc) : x <> y -> Qc_eq_bool x y = false.
Proof.
  intro Hne. destruct (Qc_eq_bool x y) eqn:E; [ | reflexivity].
  apply Qc_eq_bool_correct in E. contradiction.
Qed.

Lemma Qc_eq_bool_eq (x : Qc) : Qc_eq_bool x x = true.
Proof. unfold Qc_eq_bool. destruct (Qc_eq_dec x x); congruence. Qed.

(** [_zoom_in_mapper] on a nonzero factor, in closed form. *)
Lemma _zoom_in_mapper_returns (mapper : Mapper Qc) (f : Qc) :
  f <> 0 ->
  _zoom_in_mapper f mapper =
  (Returned tt,
   set_range
     {| low := (low (range mapper) + high (range mapper)) / Q2Qc 2
               - (high (range mapper) - low (range mapper)) / f / Q2Qc 2;
        high := (low (range mapper) + high (range mapper)) / Q2Qc 2
                + (high (range mapper) - low (range mapper)) / f / Q2Qc 2 |}
     mapper).
Proof.
  intro Hf. unfold _zoom_in_mapper, bind, get, put, py_div, ret.
  cbn [feqb f0 exact_arith]. rewrite (Qc_eq_bool_neq Hf). reflexivity.
Qed.

(** C4: for a nonzero factor [f], [_zoom_in_mapper(mapper, f)] returns,
    and in exact arithmetic it leaves the midpoint [(low + high) / 2] of
    the range where it was and divides the width [high - low] by [f]. *)
Theorem _zoom_in_mapper_midpoint_width (mapper : Mapper Qc) (f : Qc) :
  f <> 0 ->
  result_of (_zoom_in_mapper f mapper) = Returned tt /\
  (low (range (state_after (_zoom_in_mapper f mapper)))
   + high (range (state_after (_zoom_in_mapper f mapper)))) / Q2Qc 2
  = (low (range mapper) + high (range mapper)) / Q2Qc 2 /\
  high (range (state_after (_zoom_in_mapper f mapper)))
  - low (range (state_after (_zoom_in_mapper f mapper)))
  = (high (range mapper) - low (range mapper)) / f.
Proof.
  intro Hf. rewrite (_zoom_in_mapper_returns mapper Hf).
  cbn [result_of state_after fst snd set_range range low high].
  split; [reflexivity | ].
  rewrite Qc_two.
  split; field; (split; [discriminate | assumption])
                || (split; [assumption | discriminate]) || discriminate.
Qed.

(** C4, witness: the range [1, 5] zoomed by 4. *)
Lemma _zoom_in_mapper_midpoint_width_witness :
  Q2Qc 4 <> 0 /\
  (result_of (_zoom_in_mapper (Q2Qc 4) mapper_1_5) = Returned tt /\
   (low (range (state_after (_zoom_in_mapper (Q2Qc 4) mapper_1_5)))
    + high (range (state_after (_zoom_in_mapper (Q2Qc 4) mapper_1_5)))) / Q2Qc 2
   = (low (range mapper_1_5) + high (range mapper_1_5)) / Q2Qc 2 /\
   high (range (state_after (_zoom_in_mapper (Q2Qc 4) mapper_1_5)))
   - low (range (state_after (_zoom_in_mapper (Q2Qc 4) mapper_1_5)))
   = (high (range mapper_1_5) - low (range mapper_1_5)) / Q2Qc 4).
Proof.
  assert (H4 : Q2Qc 4 <> 0) by discriminate.
  split; [exact H4 | exact (_zoom_in_mapper_midpoint_width mapper_1_5 H4)].
Defined.

(** The range [1, 5] zoomed by 4 is [5/2, 7/2]. *)
Lemma zoom_1_5_by_4 :
  range (state_after (_zoom_in_mapper (Q2Qc 4) mapper_1_5))
  = {| low := Q2Qc (5 # 2); high := Q2Qc (7 # 2) |}.
Proof.
  rewrite _zoom_in_mapper_returns by discriminate.
  cbn [state_after snd set_range range].
  f_equal; apply Qc_is_canon; reflexivity.
Qed.

(** *** Undo and redo, in exact arithmetic *)

Lemma zoomed_one (r : Range Qc) : zoomed 1 r = r.
Proof.
  destruct r as [l h]. unfold zoomed. cbn [low high]. rewrite Qc_two.
  f_equal; field; repeat split; discriminate.
Qed.

Lemma zoomed_zoomed (a b : Qc) (r : Range Qc) :
  a <> 0 -> b <> 0 -> zoomed b (zoomed a r) = zoomed (a * b) r.
Proof.
  intros Ha Hb. destruct r as [l h]. unfold zoomed. cbn [low high].
  rewrite Qc_two.
  f_equal; field; repeat split; assumption || discriminate.
Qed.

Lemma zoomed_back (p n : Qc) (r : Range Qc) :
  p <> 0 -> n <> 0 -> zoomed (p / n) (zoomed (n / p) r) = r.
Proof.
  intros Hp Hn.
  assert (Hnp : n / p <> 0).
  { intro E. apply Hn. replace n with (n / p * p) by (field; exact Hp).
    rewrite E. ring. }
  assert (Hpn : p / n <> 0).
  { intro E. apply Hp. replace p with (p / n * n) by (field; exact Hn).
    rewrite E. ring. }
  rewrite (zoomed_zoomed r Hnp Hpn).
  replace (n / p * (p / n)) with 1 by (field; split; assumption).
  apply zoomed_one.
Qed.

Lemma on_index_mapper_zoom (f : Qc) (t : BetterZoom Qc) :
  f <> 0 ->
  on_index_mapper (_zoom_in_mapper f) t =
  (Returned tt,
   set_component
     (set_index_mapper
        (set_range (zoomed f (range (index_mapper (component t))))
                   (index_mapper (component t)))
        (component t)) t).
Proof.
  intro Hf. unfold on_index_mapper, zoom_on.
  rewrite (_zoom_in_mapper_returns _ Hf). reflexivity.
Qed.

Lemma on_value_mapper_zoom (f : Qc) (t : BetterZoom Qc) :
  f <> 0 ->
  on_value_mapper (_zoom_in_mapper f) t =
  (Returned tt,
   set_component
     (set_value_mapper
        (set_range (zoomed f (range (value_mapper (component t))))
                   (value_mapper (component t)))
        (component t)) t).
Proof.
  intro Hf. unfold on_value_mapper, zoom_on.
  rewrite (_zoom_in_mapper_returns _ Hf). reflexivity.
Qed.

Lemma on_index_mapper_zero (t : BetterZoom Qc) :
  result_of (on_index_mapper (_zoom_in_mapper 0) t) = Raised ZeroDivisionError.
Proof. reflexivity. Qed.

Lemma on_value_mapper_zero (t : BetterZoom Qc) :
  result_of (on_value_mapper (_zoom_in_mapper 0) t) = Raised ZeroDivisionError.
Proof. reflexivity. Qed.

Lemma Qc_div_zero (n p : Qc) : p <> 0 -> n / p = 0 -> n = 0.
Proof.
  intros Hp E. replace n with (n / p * p) by (field; exact Hp).
  rewrite E. ring.
Qed.

Lemma py_div_Qc {S} (a b : Qc) (s : S) :
  b <> 0 -> py_div a b s = (Returned (a / b), s).
Proof.
  intro Hb. unfold py_div. cbn [feqb f0 exact_arith].
  rewrite (Qc_eq_bool_neq Hb). reflexivity.
Qed.

Lemma py_div_Qc_zero {S} (a : Qc) (s : S) :
  py_div a 0 s = (Raised ZeroDivisionError, s).
Proof. reflexivity. Qed.

Lemma fneb_Qc_same (a : Qc) : fneb a a = false.
Proof. unfold fneb. cbn [feqb exact_arith]. rewrite Qc_eq_bool_eq. reflexivity. Qed.

Lemma fneb_Qc_neq (a b : Qc) : a <> b -> fneb a b = true.
Proof.
  intro Hne. unfold fneb. cbn [feqb exact_arith].
  rewrite (Qc_eq_bool_neq Hne). reflexivity.
Qed.

(** A zoom state that applies without raising has nonzero factors on
    both sides, and leaves the ranges rescaled by [next/prev] and the
    factors at [next]. *)
Lemma apply_ZoomState_returned (pi pv ni nv : Qc) (t t' : BetterZoom Qc) :
  apply (ZoomState (pi, pv) (ni, nv)) t = (Returned tt, t') ->
  (pi <> 0 /\ pv <> 0 /\ ni <> 0 /\ nv <> 0) /\
  view t' = ((ni, nv),
             (zoomed (ni / pi) (fst (ranges t)),
              zoomed (nv / pv) (snd (ranges t))),
             _history t, _history_index t).
Proof.
  cbn [apply fst snd]. unfold bind. cbn [f1 exact_arith]. intro Happ.
  destruct (Qc_eq_dec pi 0) as [Hpi | Hpi];
    [subst pi; rewrite py_div_Qc_zero in Happ; discriminate Happ | ].
  rewrite (py_div_Qc ni t Hpi) in Happ.
  destruct (Qc_eq_dec pv 0) as [Hpv | Hpv];
    [subst pv; rewrite py_div_Qc_zero in Happ; discriminate Happ | ].
  rewrite (py_div_Qc nv t Hpv) in Happ.
  assert (Hone : (1 : Qc) <> 0) by discriminate.
  destruct (Qc_eq_dec (ni / pi) 1) as [Ha | Ha].
  - rewrite Ha in *. rewrite fneb_Qc_same in Happ. cbn [when] in Happ.
    unfold ret at 1 in Happ.
    assert (Hni : ni <> 0).
    { intro E. subst ni. apply Hone. rewrite <- Ha. field. exact Hpi. }
    destruct (Qc_eq_dec (nv / pv) 1) as [Hb | Hb].
    + rewrite Hb in *. rewrite fneb_Qc_same in Happ. cbn [when] in Happ.
      unfold ret, modify in Happ. inversion Happ; subst t'; clear Happ.
      assert (Hnv : nv <> 0).
      { intro E. subst nv. apply Hone. rewrite <- Hb. field. exact Hpv. }
      split; [repeat split; assumption | ].
      unfold view, factors, ranges. cbn. rewrite !zoomed_one. reflexivity.
    + rewrite (fneb_Qc_neq Hb) in Happ. cbn [when] in Happ.
      destruct (Qc_eq_dec (nv / pv) 0) as [Hb0 | Hb0].
      * rewrite Hb0 in Happ.
        pose proof (on_value_mapper_zero t) as Hz.
        destruct (on_value_mapper (_zoom_in_mapper 0) t) as [[[] | e] t0];
          cbn [result_of fst] in Hz; discriminate.
      * rewrite (on_value_mapper_zoom t Hb0) in Happ.
        unfold modify in Happ. inversion Happ; subst t'; clear Happ.
        assert (Hnv : nv <> 0).
        { intro E. subst nv. apply Hb0. field. exact Hpv. }
        split; [repeat split; assumption | ].
        unfold view, factors, ranges. cbn. rewrite !zoomed_one. reflexivity.
  - rewrite (fneb_Qc_neq Ha) in Happ. cbn [when] in Happ.
    destruct (Qc_eq_dec (ni / pi) 0) as [Ha0 | Ha0].
    + rewrite Ha0 in Happ.
      pose proof (on_index_mapper_zero t) as Hz.
      destruct (on_index_mapper (_zoom_in_mapper 0) t) as [[[] | e] t0];
        cbn [result_of fst] in Hz; discriminate.
    + rewrite (on_index_mapper_zoom t Ha0) in Happ.
      assert (Hni : ni <> 0).
      { intro E. subst ni. apply Ha0. field. exact Hpi. }
      destruct (Qc_eq_dec (nv / pv) 1) as [Hb | Hb].
      * rewrite Hb in *. rewrite fneb_Qc_same in Happ. cbn [when] in Happ.
        unfold ret, modify in Happ. inversion Happ; subst t'; clear Happ.
        assert (Hnv : nv <> 0).
        { intro E. subst nv. apply Hone. rewrite <- Hb. field. exact Hpv. }
        split; [repeat split; assumption | ].
        unfold view, factors, ranges. cbn. rewrite !zoomed_one. reflexivity.
      * rewrite (fneb_Qc_neq Hb) in Happ. cbn [when] in Happ.
        destruct (Qc_eq_dec (nv / pv) 0) as [Hb0 | Hb0].
        -- rewrite Hb0 in Happ.
           match type of Happ with
           | context [on_value_mapper (_zoom_in_mapper 0) ?t0] =>
               pose proof (on_value_mapper_zero t0) as Hz;
               destruct (on_value_mapper (_zoom_in_mapper 0) t0) as [[[] | e] t1];
               cbn [result_of fst] in Hz; discriminate
           end.
        -- match type of Happ with
           | context [on_value_mapper (_zoom_in_mapper _) ?t0] =>
               rewrite (on_value_mapper_zoom t0 Hb0) in Happ
           end.
           unfold modify in Happ. inversion Happ; subst t'; clear Happ.
           assert (Hnv : nv <> 0).
           { intro E. subst nv. apply Hb0. field. exact Hpv. }
           split; [repeat split; assumption | ].
           unfold view, factors, ranges. cbn. reflexivity.
Qed.

(** The converse: with nonzero factors on both sides the state applies
    without raising. *)
Lemma apply_ZoomState_view (pi pv ni nv : Qc) (t : BetterZoom Qc) :
  pi <> 0 -> pv <> 0 -> ni <> 0 -> nv <> 0 ->
  result_of (apply (ZoomState (pi, pv) (ni, nv)) t) = Returned tt /\
  view (state_after (apply (ZoomState (pi, pv) (ni, nv)) t))
  = ((ni, nv),
     (zoomed (ni / pi) (fst (ranges t)), zoomed (nv / pv) (snd (ranges t))),
     _history t, _history_index t).
Proof.
  intros Hpi Hpv Hni Hnv.
  assert (Ha0 : ni / pi <> 0) by (intro E; exact (Hni (Qc_div_zero Hpi E))).
  assert (Hb0 : nv / pv <> 0) by (intro E; exact (Hnv (Qc_div_zero Hpv E))).
  cbn [apply fst snd]. unfold bind. cbn [f1 exact_arith].
  rewrite (py_div_Qc ni t Hpi), (py_div_Qc nv t Hpv).
  destruct (Qc_eq_dec (ni / pi) 1) as [Ha | Ha];
    destruct (Qc_eq_dec (nv / pv) 1) as [Hb | Hb];
    rewrite ?Ha, ?Hb, ?fneb_Qc_same, ?(fneb_Qc_neq Ha), ?(fneb_Qc_neq Hb);
    cbn [when]; unfold ret;
    rewrite ?(on_index_mapper_zoom t Ha0);
    repeat match goal with
      | |- context [on_value_mapper (_zoom_in_mapper _) ?t0] =>
          rewrite (on_value_mapper_zoom t0 Hb0)
      end;
    unfold modify, view, factors, ranges; cbn; rewrite ?zoomed_one;
    split; reflexivity.
Qed.

Lemma revert_ZoomState_view (pi pv ni nv : Qc) (t : BetterZoom Qc) :
  pi <> 0 -> pv <> 0 -> ni <> 0 -> nv <> 0 ->
  result_of (revert (ZoomState (pi, pv) (ni, nv)) t) = Returned tt /\
  view (state_after (revert (ZoomState (pi, pv) (ni, nv)) t))
  = ((pi, pv),
     (zoomed (pi / ni) (fst (ranges t)), zoomed (pv / nv) (snd (ranges t))),
     _history t, _history_index t).
Proof.
  intros Hpi Hpv Hni Hnv.
  assert (Ha0 : pi / ni <> 0) by (intro E; exact (Hpi (Qc_div_zero Hni E))).
  assert (Hb0 : pv / nv <> 0) by (intro E; exact (Hpv (Qc_div_zero Hnv E))).
  cbn [revert fst snd]. unfold bind.
  rewrite (py_div_Qc pi t Hni), (on_index_mapper_zoom t Ha0).
  match goal with
  | |- context [py_div pv nv ?t0] => rewrite (py_div_Qc pv t0 Hnv)
  end.
  match goal with
  | |- context [on_value_mapper (_zoom_in_mapper _) ?t0] =>
      rewrite (on_value_mapper_zoom t0 Hb0)
  end.
  unfold modify, view, factors, ranges; cbn. split; reflexivity.
Qed.

(** Zoom, back, forward, away from an emptied history and with
    [zoom_to_mouse] off: a call that passed its limit checks and
    returned has appended a zoom state after a non-empty history; the
    previous-state action then restores the factors and the two ranges
    to what they were before the call, and the next-state action
    restores what the call had left. *)
Lemma zoom_back_forward_exact (op : ZoomOp) (factor : Qc)
      (t t1 : BetterZoom Qc) (p : Qc * Qc) :
  zoom_to_mouse t = false ->
  (_history_index t < length (_history t))%nat ->
  prospective op factor t = Some p ->
  gate op t p = false ->
  run_op op factor t = (Returned tt, t1) ->
  result_of (prev_state_action t1) = Returned tt /\
  factors (state_after (prev_state_action t1)) = factors t /\
  ranges (state_after (prev_state_action t1)) = ranges t /\
  result_of (next_state_action (state_after (prev_state_action t1)))
  = Returned tt /\
  factors (state_after (next_state_action (state_after (prev_state_action t1))))
  = factors t1 /\
  ranges (state_after (next_state_action (state_after (prev_state_action t1))))
  = ranges t1.
Proof.
  intros Hmouse Hidx Hp Hgate Hrun.
  rewrite run_op_shape, Hp, Hgate in Hrun.
  destruct p as [ni nv]. cbn [fst snd] in Hrun.
  assert (Hzoom : perform_zoom ni nv t =
                  (apply (ZoomState (_index_factor t, _value_factor t) (ni, nv)) ;;;
                   _append_state
                     (ZoomState (_index_factor t, _value_factor t) (ni, nv)))%py t).
  { unfold perform_zoom. unfold bind at 1, get. cbv beta iota.
    rewrite Hmouse. reflexivity. }
  rewrite Hzoom in Hrun; clear Hzoom.
  set (zs := ZoomState (_index_factor t, _value_factor t) (ni, nv)) in *.
  unfold bind in Hrun.
  destruct (apply zs t) as [[[] | e] t'] eqn:Happ; [ | discriminate Hrun].
  rewrite _append_state_eq in Hrun.
  destruct (apply_ZoomState_returned _ _ _ _ _ Happ)
    as [(Hpi & Hpv & Hni & Hnv) Hview].
  unfold view in Hview.
  assert (Hf' : factors t' = (ni, nv)) by congruence.
  assert (Hr' : ranges t' =
                (zoomed (ni / _index_factor t) (fst (ranges t)),
                 zoomed (nv / _value_factor t) (snd (ranges t)))) by congruence.
  assert (Hh' : _history t' = _history t) by congruence.
  assert (Hi' : _history_index t' = _history_index t) by congruence.
  clear Hview.
  rewrite Hh', Hi' in Hrun.
  destruct (appended_last zs (_history t) Hidx) as [Hlen Hnth].
  rewrite Hlen in Hrun.
  set (hist1 := firstn (S (_history_index t)) (_history t) ++ [zs]) in *.
  inversion Hrun as [Ht1]; clear Hrun.
  (* back *)
  assert (Hback : prev_state_action
                    (set_history hist1 (S (_history_index t)) t')
                  = revert zs (set_history hist1 (_history_index t) t')).
  { rewrite (prev_state_action_eq
               (set_history hist1 (S (_history_index t)) t')
               (s := zs) (idx := _history_index t) eq_refl Hnth).
    reflexivity. }
  rewrite Hback.
  destruct (revert_ZoomState_view
              (set_history hist1 (_history_index t) t') Hpi Hpv Hni Hnv)
    as [Hres2 Hview2].
  fold zs in Hres2, Hview2.
  set (t2 := state_after (revert zs (set_history hist1 (_history_index t) t')))
    in *.
  unfold view in Hview2.
  change (ranges (set_history hist1 (_history_index t) t')) with (ranges t')
    in Hview2.
  rewrite Hr' in Hview2. cbn [fst snd] in Hview2.
  rewrite !(zoomed_back _ Hpi Hni), !(zoomed_back _ Hpv Hnv) in Hview2.
  rewrite <- surjective_pairing in Hview2.
  injection Hview2 as Hfi Hfv Hri Hrv Hh2 Hi2.
  assert (Hf2 : factors t2 = factors t) by (unfold factors; congruence).
  assert (Hr2 : ranges t2 = ranges t) by (unfold ranges; congruence).
  cbn [_history _history_index set_history] in Hh2, Hi2.
  split; [exact Hres2 | ]. split; [exact Hf2 | ]. split; [exact Hr2 | ].
  (* forward *)
  assert (Hnth2 : nth_error (_history t2) (S (_history_index t2)) = Some zs)
    by (rewrite Hh2, Hi2; exact Hnth).
  rewrite (next_state_action_eq t2 Hnth2).
  destruct (apply_ZoomState_view
              (set_history (_history t2) (S (_history_index t2)) t2)
              Hpi Hpv Hni Hnv) as [Hres3 Hview3].
  fold zs in Hres3, Hview3.
  set (t3 := state_after
               (apply zs (set_history (_history t2) (S (_history_index t2)) t2)))
    in *.
  unfold view in Hview3.
  change (ranges (set_history (_history t2) (S (_history_index t2)) t2))
    with (ranges t2) in Hview3.
  rewrite Hr2 in Hview3.
  split; [exact Hres3 | ].
  change (factors (set_history hist1 (S (_history_index t)) t'))
    with (factors t').
  change (ranges (set_history hist1 (S (_history_index t)) t'))
    with (ranges t').
  rewrite Hf', Hr'. split; congruence.
Qed.


(** The round trip on a fresh tool zoomed in by 3. *)
Lemma zoom_back_forward_fresh :
  ranges (state_after
            (prev_state_action
               (state_after (zoom_in (Q2Qc 3) fresh_tool_exact))))
  = ranges fresh_tool_exact.
Proof.
  assert (Hrun : run_op ZoomIn (Q2Qc 3) fresh_tool_exact
                 = (Returned tt,
                    state_after (zoom_in (Q2Qc 3) fresh_tool_exact))).
  { cbn [run_op].
    assert (Hres : result_of (zoom_in (Q2Qc 3) fresh_tool_exact) = Returned tt)
      by (vm_compute; reflexivity).
    destruct (zoom_in (Q2Qc 3) fresh_tool_exact) as [res t1].
    cbn [result_of state_after fst snd] in *. rewrite Hres. reflexivity. }
  refine (proj1 (proj2 (proj2
            (zoom_back_forward_exact ZoomIn (Q2Qc 3) fresh_tool_exact
                                     (p := (Q2Qc 3, Q2Qc 3))
                                     eq_refl _ _ _ Hrun)))).
  - cbn. lia.
  - vm_compute. f_equal.
  - vm_compute. reflexivity.
Qed.

End ZoomFacts.

(* ================================================================== *)
(** * Properties of the 2-D range *)
(* ================================================================== *)

Module RangeFacts.

Import DataRange1D DataRange2D.

(** ** Lists of sources *)








(** ** Registrations *)





Section Generic.

Context {F : Type} `{Arith F}.

Variable calc_bounds : Setting F -> Setting F -> list DataSource -> F * F.

Local Open Scope py_scope.

Local Notation "'refresh1'" := (DataRange1D.refresh calc_bounds).
Local Notation "'refresh2'" := (DataRange2D.refresh calc_bounds).

(** ** Refreshing *)

Lemma refresh1_user_set (x : DataRange1D F) :
  is_auto (low_setting x) = false -> is_auto (high_setting x) = false ->
  refresh1 x = x.
Proof.
  unfold DataRange1D.refresh, low_setting, high_setting.
  intros -> ->. reflexivity.
Qed.


(** [refresh] always returns, and touches the two 1-D ranges only, by
    their own [refresh]. *)
Lemma refresh2_eq (r : DataRange2D F) :
  refresh2 r = (Returned tt, r) \/
  refresh2 r =
  (Returned tt, set_yrange (refresh1 (_yrange r)) (set_xrange (refresh1 (_xrange r)) r)).
Proof.
  unfold DataRange2D.refresh, bind, get.
  destruct (negb (auto_in (_low_setting r)) && negb (auto_in (_high_setting r)));
    [left | right]; reflexivity.
Qed.

(** C3: when neither the low nor the high setting of the range has an
    'auto' component -- the settings read through the properties
    [low_setting] and [high_setting], as [set_bounds] leaves them, or
    the private attributes [_low_setting] and [_high_setting] that
    [refresh] tests -- [refresh()] returns and leaves the range, and so
    its low and high values, as they were. *)
Theorem refresh_keeps_user_bounds (r : DataRange2D F) :
  (auto_in (_get_low_setting r) = false /\
   auto_in (_get_high_setting r) = false) \/
  (auto_in (_low_setting r) = false /\
   auto_in (_high_setting r) = false) ->
  refresh2 r = (Returned tt, r) /\
  _get_low (state_after (refresh2 r)) = _get_low r /\
  _get_high (state_after (refresh2 r)) = _get_high r.
Proof.
  intro Huser.
  assert (E : refresh2 r = (Returned tt, r)).
  { destruct Huser as [[Hlow Hhigh] | [Hlow Hhigh]].
    - unfold auto_in, _get_low_setting, _get_high_setting in Hlow, Hhigh.
      cbn [fst snd] in Hlow, Hhigh.
      apply orb_false_iff in Hlow. destruct Hlow as [Hxl Hyl].
      apply orb_false_iff in Hhigh. destruct Hhigh as [Hxh Hyh].
      destruct (refresh2_eq r) as [E | E]; [exact E | ].
      rewrite E, (refresh1_user_set _ Hxl Hxh), (refresh1_user_set _ Hyl Hyh).
      destruct r; reflexivity.
    - unfold DataRange2D.refresh, bind, get. rewrite Hlow, Hhigh. reflexivity. }
  rewrite E. repeat split.
Qed.

(** The example of the claim: after [set_bounds] with two pairs of
    numbers the settings have no 'auto' component and the bounds are the
    numbers given. *)
Lemma set_bounds_numbers (r : DataRange2D F) (lx ly hx hy : F) :
  let r' := state_after
              (set_bounds calc_bounds (number lx, number ly)
                          (number hx, number hy) r) in
  auto_in (_get_low_setting r') = false /\
  auto_in (_get_high_setting r') = false /\
  _get_low r' = (lx, ly) /\ _get_high r' = (hx, hy).
Proof. repeat split. Qed.

(** ** Masks *)

Lemma mask_data_map (r : DataRange2D F) (data : list (F * F)) :
  mask_data r data = map (inside r) data.
Proof.
  unfold mask_data, transpose, ge_scalar, le_scalar.
  induction data as [ | [x y] data IH]; [reflexivity | ].
  cbn [map mask_and fst snd]. rewrite IH. reflexivity.
Qed.

Lemma compress_map_filter {A} (f : A -> bool) (l : list A) :
  compress (map f l) l = filter f l.
Proof.
  induction l as [ | x l IH]; [reflexivity | ].
  cbn [map compress filter]. destruct (f x); rewrite IH; reflexivity.
Qed.

(** C5: entry [i] of the mask is [True] exactly when point [i] has
    [low[0] <= x <= high[0]] and [low[1] <= y <= high[1]] (the mask has
    one entry per point), and [clip_data] returns the points whose entry
    is [True], in their order. *)
Theorem mask_data_clip_data (r : DataRange2D F) (data : list (F * F)) :
  length (mask_data r data) = length data /\
  (forall i, nth_error (mask_data r data) i
             = option_map (inside r) (nth_error data i)) /\
  clip_data r data = filter (inside r) data.
Proof.
  unfold clip_data. rewrite mask_data_map. split; [apply length_map | ].
  split; [intro i; apply nth_error_map | apply compress_map_filter].
Qed.

(** In exact arithmetic the test is the order of the rationals. *)
Lemma inside_exact (r : DataRange2D Qc) (x y : Qc) :
  inside r (x, y) = true <->
  ((fst (_get_low r) <= x /\ x <= fst (_get_high r)) /\
   (snd (_get_low r) <= y /\ y <= snd (_get_high r)))%Qc.
Proof.
  unfold inside. cbn [fst snd fleb exact_arith]. unfold Qc_leb, Qcle.
  rewrite !andb_true_iff, !Qle_bool_iff. reflexivity.
Qed.

(** ** [bound_data] *)

(** C9: on every input and in every state of the range, [bound_data]
    raises [NotImplementedError] and leaves the range as it was; a
    caller's code after the call does not run. *)
Theorem bound_data_not_implemented (r : DataRange2D F) (data : list (F * F)) :
  result_of (bound_data data r) = Raised NotImplementedError /\
  state_after (bound_data data r) = r /\
  (forall (A : Type) (rest : list (F * F) -> M (DataRange2D F) A),
      (bounded <- bound_data data ;; rest bounded) r
      = (Raised NotImplementedError, r)).
Proof.
  unfold bound_data, raise.
  split; [reflexivity | ]. split; [reflexivity | ].
  intros A rest. unfold bind. reflexivity.
Qed.

(** ** Setting the 1-D ranges *)

(** Nothing binds [datanamem]. *)
Lemma datanamem_unbound {S} (s : S) :
  read_name "datanamem" s = (Raised NameError, s).
Proof. reflexivity. Qed.

Lemma _set_1d_range_eq (dataname : ImageData -> DataSource)
      (oldrange : RangeRef) (newrange : DataRange1D F) (r : DataRange2D F) :
  _set_1d_range calc_bounds dataname oldrange newrange r =
  match sources r with
  | [] => (Returned newrange, r)
  | _ :: _ => (Raised NameError, r)
  end.
Proof.
  unfold _set_1d_range, bind, get. destruct (sources r) as [ | source l].
  - reflexivity.
  - cbn [_set_1d_range_loop]. unfold bind. rewrite datanamem_unbound.
    reflexivity.
Qed.

(** C8: with a non-empty [sources] list, assigning [x_range] or
    [y_range] raises [NameError] and leaves the range as it was (no
    source is moved, the new 1-D range is not installed); with an empty
    list the assignment returns and installs the new 1-D range. *)
Theorem set_1d_range_NameError (r : DataRange2D F) (newrange : DataRange1D F) :
  (sources r <> [] ->
   _set_x_range calc_bounds newrange r = (Raised NameError, r) /\
   _set_y_range calc_bounds newrange r = (Raised NameError, r)) /\
  (sources r = [] ->
   _set_x_range calc_bounds newrange r = (Returned tt, set_xrange newrange r) /\
   _set_y_range calc_bounds newrange r = (Returned tt, set_yrange newrange r)).
Proof.
  unfold _set_x_range, _set_y_range, bind.
  rewrite !_set_1d_range_eq.
  split; intro Hs; destruct (sources r); split;
    congruence || reflexivity.
Qed.

(** ** The handlers of changes of [sources] *)










End Generic.

(** ** Concrete ranges, on binary64 floats *)

Local Open Scope float_scope.

(** C3, witness: [refresh()] on the range with bounds (0,0) and (1,1). *)
Lemma refresh_keeps_user_bounds_witness :
  DataRange2D.refresh no_data unit_square = (Returned tt, unit_square) /\
  _get_low (state_after (DataRange2D.refresh no_data unit_square)) = (0, 0) /\
  _get_high (state_after (DataRange2D.refresh no_data unit_square)) = (1, 1).
Proof.
  apply (refresh_keeps_user_bounds no_data unit_square).
  left. split; reflexivity.
Defined.

(** The mask of four points against the unit square; a point with a NaN
    coordinate is outside. *)
Lemma mask_data_unit_square :
  mask_data unit_square [(0.5, 0.5); (2, 0.5); (1, 1); (nan, 0)]
  = [true; false; true; false] /\
  clip_data unit_square [(0.5, 0.5); (2, 0.5); (1, 1); (nan, 0)]
  = [(0.5, 0.5); (1, 1)].
Proof. split; vm_compute; reflexivity. Qed.

(** C8, witness: the range with one source refuses a new [x_range]; the
    range without sources takes it. *)
Lemma set_1d_range_NameError_witness :
  _set_x_range no_data new_DataRange1D range_of_a
  = (Raised NameError, range_of_a) /\
  _set_x_range no_data new_DataRange1D new_DataRange2D
  = (Returned tt, set_xrange new_DataRange1D new_DataRange2D).
Proof.
  split.
  - apply (proj1 (set_1d_range_NameError no_data range_of_a new_DataRange1D)).
    discriminate.
  - apply (proj2 (set_1d_range_NameError no_data new_DataRange2D
                                         new_DataRange1D)).
    reflexivity.
Defined.


End RangeFacts.

(* ================================================================== *)
(** * Properties of [draw_arrow] *)
(* ================================================================== *)

Module ArrowFacts.

Import DataLabel.

Local Open Scope R_scope.

Lemma sum_sq_nonneg (a : vec) : 0 <= fst a * fst a + snd a * snd a.
Proof. nra. Qed.

Lemma norm_sq (a : vec) : norm a * norm a = fst a * fst a + snd a * snd a.
Proof. unfold norm. apply sqrt_sqrt. apply sum_sq_nonneg. Qed.

Lemma norm_pos (a : vec) : a <> (0, 0) -> 0 < norm a.
Proof.
  intro Ha. unfold norm. apply sqrt_lt_R0.
  destruct a as [x y]. cbn [fst snd].
  assert (Hxy : x <> 0 \/ y <> 0).
  { destruct (Req_dec_T x 0) as [Hx | Hx]; [ | left; exact Hx].
    destruct (Req_dec_T y 0) as [Hy | Hy]; [ | right; exact Hy].
    exfalso. apply Ha. subst. reflexivity. }
  destruct Hxy as [Hx | Hy]; nra.
Qed.

(** The norm of a vector is the nonnegative number whose square is the
    sum of the squares of the components. *)
Lemma norm_unique (a : vec) (n : R) :
  0 <= n -> n * n = fst a * fst a + snd a * snd a -> norm a = n.
Proof.
  intros Hn Hsq. unfold norm. apply sqrt_lem_1.
  - apply sum_sq_nonneg.
  - exact Hn.
  - exact Hsq.
Qed.


(** The square of the norm of [perp_vec] is the square of
    [0.3 * arrowhead_size]. *)
Lemma perp_vec_sq (u : vec) (arrowhead_size : R) :
  fst (perp_vec u arrowhead_size) * fst (perp_vec u arrowhead_size)
  + snd (perp_vec u arrowhead_size) * snd (perp_vec u arrowhead_size)
  = (0.3 * arrowhead_size) * (0.3 * arrowhead_size).
Proof.
  unfold perp_vec. destruct u as [u0 u1]. cbn [fst snd].
  destruct (Req_dec_T u0 0) as [H0 | H0]; cbn [fst snd]; [ring | ].
  destruct (Req_dec_T u1 0) as [H1 | H1]; cbn [fst snd scale]; [ring | ].
  set (v := (1, - 1 / (u1 / u0))).
  assert (Hpos : 0 < norm v).
  { apply norm_pos. intro E. inversion E. lra. }
  pose proof (norm_sq v) as Hsq. cbn [fst snd v] in Hsq.
  replace (0.3 * arrowhead_size / norm v * 1 * (0.3 * arrowhead_size / norm v * 1)
           + 0.3 * arrowhead_size / norm v * (- 1 / (u1 / u0))
             * (0.3 * arrowhead_size / norm v * (- 1 / (u1 / u0))))
    with ((0.3 * arrowhead_size) * (0.3 * arrowhead_size)
          * (1 * 1 + - 1 / (u1 / u0) * (- 1 / (u1 / u0)))
          / (norm v * norm v)).
  - rewrite <- Hsq. field. lra.
  - field. repeat split; try assumption. lra.
Qed.





(** Without the sign condition the norm is the absolute value. *)
Lemma perp_vec_norm_abs (u : vec) (arrowhead_size : R) :
  norm (perp_vec u arrowhead_size) = Rabs (0.3 * arrowhead_size).
Proof.
  apply norm_unique; [apply Rabs_pos | ].
  rewrite perp_vec_sq. unfold Rabs.
  destruct (Rcase_abs (0.3 * arrowhead_size)); ring.
Qed.

End ArrowFacts.

(* ================================================================== *)
(** * More properties of the zoom tool *)
(* ================================================================== *)

Module ZoomMore.

Import BetterZoom ZoomTerms ZoomFacts.

Section Generic.

Context {F : Type} `{Arith F}.

Local Open Scope py_scope.

(** A division by a factor that compares equal to zero leaves no
    prospective factors. *)
Lemma prospective_by_zero (op : ZoomOp) (factor : F) (t : BetterZoom F) :
  divides op = true ->
  feqb (effective_factor t factor) f0 = true ->
  prospective op factor t = None.
Proof.
  intros Hop Hzero. unfold prospective, quotient. rewrite Hzero.
  destruct op; try discriminate Hop;
    destruct (is_h (orientation (component t))); reflexivity.
Qed.

Lemma wheel_performs_bind (event : MouseEvent) (t : BetterZoom F)
      (zoom : M (BetterZoom F) unit) :
  normal_mouse_wheel event t = (zoom ;;; ret (set_handled true event)) t ->
  wheel_performs event t zoom.
Proof.
  intro E. unfold wheel_performs, handled_after. rewrite E. unfold bind.
  split.
  - intros t' Hzoom. rewrite Hzoom. split; reflexivity.
  - intros e t' Hzoom. rewrite Hzoom. split; reflexivity.
Qed.

(** C7, amended: with [enable_wheel] off, or with a zero [mouse_wheel],
    [normal_mouse_wheel] returns with the tool and the event as they
    were (the event is not marked handled).  With [enable_wheel] on, a
    positive [mouse_wheel] performs [zoom_in()] and a negative one
    [zoom_out()]: when that call returns -- it zoomed, or a limit
    refused it -- the tool is as the call left it and the event is
    marked handled; when that call raises, the exception leaves the
    handler and the event is not marked handled.  [zoom_out()] does
    raise, [ZeroDivisionError], with the tool unchanged, when the
    [zoom_factor] of the tool compares equal to zero. *)
Theorem normal_mouse_wheel_handled (event : MouseEvent) (t : BetterZoom F) :
  (enable_wheel t = false ->
   normal_mouse_wheel event t = (Returned event, t)) /\
  (enable_wheel t = true -> mouse_wheel event = 0%Z ->
   normal_mouse_wheel event t = (Returned event, t)) /\
  (enable_wheel t = true -> (mouse_wheel event > 0)%Z ->
   wheel_performs event t (zoom_in f0)) /\
  (enable_wheel t = true -> (mouse_wheel event < 0)%Z ->
   wheel_performs event t (zoom_out f0)) /\
  (enable_wheel t = true -> (mouse_wheel event < 0)%Z ->
   feqb (effective_factor t f0) f0 = true ->
   normal_mouse_wheel event t = (Raised ZeroDivisionError, t) /\
   handled_after event (normal_mouse_wheel event t) = handled event).
Proof.
  destruct (normal_mouse_wheel_cases event t) as (Hoff & Hup & Hdown & Hzero).
  split; [exact Hoff | ]. split; [exact Hzero | ].
  split; [intros Hon Hpos;
          exact (@wheel_performs_bind event t (zoom_in f0) (Hup Hon Hpos)) | ].
  split; [intros Hon Hneg;
          exact (@wheel_performs_bind event t (zoom_out f0) (Hdown Hon Hneg)) | ].
  intros Hon Hneg Hfactor.
  assert (Hraise : zoom_out f0 t = (Raised ZeroDivisionError, t)).
  { change (zoom_out f0 t) with (run_op ZoomOut f0 t).
    rewrite run_op_shape, (prospective_by_zero ZoomOut f0 t eq_refl Hfactor).
    reflexivity. }
  exact (proj2 (@wheel_performs_bind event t (zoom_out f0) (Hdown Hon Hneg))
               _ _ Hraise).
Qed.

(** X1: [zoom_out], [zoom_out_x] and [zoom_out_y] called with a factor
    that compares equal to zero after the default is substituted (a zero
    [zoom_factor]) raise [ZeroDivisionError] and leave the tool as it
    was. *)
Theorem zoom_out_by_zero_raises (op : ZoomOp) (factor : F) (t : BetterZoom F) :
  divides op = true ->
  feqb (effective_factor t factor) f0 = true ->
  run_op op factor t = (Raised ZeroDivisionError, t).
Proof.
  intros Hop Hzero. rewrite run_op_shape.
  assert (Hp : prospective op factor t = None).
  { unfold prospective, quotient. rewrite Hzero.
    destruct op; try discriminate Hop;
      destruct (is_h (orientation (component t))); reflexivity. }
  rewrite Hp. reflexivity.
Qed.

(** The three methods that multiply never raise while computing the
    prospective factors. *)
Lemma zoom_in_prospective (op : ZoomOp) (factor : F) (t : BetterZoom F) :
  divides op = false -> prospective op factor t <> None.
Proof.
  intro Hop. unfold prospective.
  destruct op; try discriminate Hop; discriminate.
Qed.

(** X2: a wheel event on a tool with the wheel enabled is marked handled
    also when the zoom it asks for is refused by a limit: the tool stays
    as it was, and the event is consumed. *)
Theorem wheel_consumed_when_refused (event : MouseEvent) (t : BetterZoom F)
        (p : F * F) :
  enable_wheel t = true ->
  mouse_wheel event <> 0%Z ->
  prospective (wheel_op event) f0 t = Some p ->
  refused (wheel_op event) t p ->
  normal_mouse_wheel event t = (Returned (set_handled true event), t).
Proof.
  intros Hwheel Hne Hp Hr.
  assert (E : normal_mouse_wheel event t =
              (if negb (enable_wheel t) then ret event
               else if negb (mouse_wheel event =? 0)%Z
                    then (if (mouse_wheel event >? 0)%Z
                          then run_op ZoomIn f0 else run_op ZoomOut f0) ;;;
                         ret (set_handled true event)
                    else ret event) t) by reflexivity.
  rewrite E, Hwheel. cbn [negb].
  apply Z.eqb_neq in Hne. rewrite Hne. cbn [negb].
  assert (Hrun : run_op (wheel_op event) f0 t = (Returned tt, t)).
  { rewrite run_op_shape, Hp, (refused_gate Hr). reflexivity. }
  unfold wheel_op in Hrun. unfold bind.
  destruct (mouse_wheel event >? 0)%Z; rewrite Hrun; reflexivity.
Qed.

(** X3: calling a zoom method with the default argument 0 is calling it
    with the tool's [zoom_factor] (in an arithmetic where zero compares
    equal to itself). *)
Theorem default_factor_is_zoom_factor (op : ZoomOp) (t : BetterZoom F) :
  feqb f0 f0 = true ->
  run_op op f0 t = run_op op (zoom_factor t) t.
Proof.
  intro Hrefl.
  assert (Heff : effective_factor t f0 = effective_factor t (zoom_factor t)).
  { unfold effective_factor. rewrite Hrefl.
    destruct (feqb (zoom_factor t) f0); reflexivity. }
  assert (Hp : prospective op f0 t = prospective op (zoom_factor t) t).
  { unfold prospective. rewrite Heff. reflexivity. }
  rewrite !run_op_shape, Hp. reflexivity.
Qed.

(** The factors after a call are those before it or the prospective
    ones. *)
Lemma run_op_factors (op : ZoomOp) (factor : F) (t : BetterZoom F) :
  factors (state_after (run_op op factor t)) = factors t \/
  exists p, prospective op factor t = Some p /\
            factors (state_after (run_op op factor t)) = p.
Proof.
  rewrite run_op_shape.
  destruct (prospective op factor t) as [p | ] eqn:Hp; [ | left; reflexivity].
  destruct (gate op t p); [left; reflexivity | ].
  destruct (perform_zoom_steps (fst p) (snd p) t) as [_ [Hf | Hf]].
  - left. exact Hf.
  - right. exists p. split; [reflexivity | ].
    rewrite Hf. symmetry. apply surjective_pairing.
Qed.

(** X4: a one-axis zoom never changes the factor of the other screen
    axis: after [zoom_in_x] or [zoom_out_x] the factor of the y axis is
    what it was, after [zoom_in_y] or [zoom_out_y] the factor of the x
    axis, whether the call zoomed, was refused or raised. *)
Theorem one_axis_zoom_keeps_other_factor (op : ZoomOp) (factor : F)
        (t : BetterZoom F) (a : ScreenAxis) :
  checked op a = false ->
  screen_factor t a (factors (state_after (run_op op factor t)))
  = screen_factor t a (factors t).
Proof.
  intro Hc.
  destruct (run_op_factors op factor t) as [Hf | [p [Hp Hf]]]; rewrite Hf.
  - reflexivity.
  - exact (prospective_unchecked op factor t a Hp Hc).
Qed.

(** X5: under [axis = 'index'] the methods [zoom_in] and [zoom_out]
    never change [_value_factor], and under [axis = 'value'] they never
    change [_index_factor]. *)
Theorem axis_restriction_keeps_factor (op : ZoomOp) (factor : F)
        (t : BetterZoom F) (kept : F) :
  op = ZoomIn \/ op = ZoomOut ->
  kept_factor (axis t) (factors t) = Some kept ->
  kept_factor (axis t) (factors (state_after (run_op op factor t))) = Some kept.
Proof.
  intros Hop Hkept.
  destruct (run_op_factors op factor t) as [Hf | [p [Hp Hf]]]; rewrite Hf.
  - exact Hkept.
  - rewrite <- Hkept. unfold prospective, quotient in Hp.
    destruct Hop; subst op;
      destruct (axis t); try discriminate Hkept;
      repeat match type of Hp with
        | context [feqb ?x ?y] => destruct (feqb x y)
        end;
      try discriminate Hp; inversion Hp; reflexivity.
Qed.

(** X6: [_zoom_in_mapper] with a factor that compares equal to zero
    (0.0 or -0.0) raises [ZeroDivisionError] before it writes: the range
    of the mapper is as it was. *)
Theorem _zoom_in_mapper_zero_factor (mapper : Mapper F) (factor : F) :
  feqb factor f0 = true ->
  _zoom_in_mapper factor mapper = (Raised ZeroDivisionError, mapper).
Proof.
  intro Hzero. unfold _zoom_in_mapper, bind, get, py_div.
  rewrite Hzero. reflexivity.
Qed.


End Generic.

(** *** On concrete tools, in binary64 *)

Local Open Scope float_scope.

(** C7, counterexample: on [BetterZoom(plot, zoom_factor=0.0)], with
    [enable_wheel] on, a wheel event with [mouse_wheel = -1] is not
    marked handled: [zoom_out()] raises [ZeroDivisionError] at its first
    division, and the assignment [event.handled = True] is not
    reached. *)
Lemma wheel_down_raises_at_zero_factor :
  enable_wheel zero_factor_tool = true /\
  (mouse_wheel wheel_down < 0)%Z /\
  normal_mouse_wheel wheel_down zero_factor_tool
  = (Raised ZeroDivisionError, zero_factor_tool) /\
  handled_after wheel_down (normal_mouse_wheel wheel_down zero_factor_tool)
  = false.
Proof.
  split; [reflexivity | ]. split; [reflexivity | ].
  split; vm_compute; reflexivity.
Qed.

(** C7, witness: one notch up on a fresh tool zooms in by the default
    factor, and the event is marked handled. *)
Lemma normal_mouse_wheel_handled_witness :
  normal_mouse_wheel wheel_up fresh_tool
  = (Returned (set_handled true wheel_up), state_after (zoom_in 0 fresh_tool)) /\
  handled_after wheel_up (normal_mouse_wheel wheel_up fresh_tool) = true.
Proof.
  refine (proj1 (proj1 (proj2 (proj2
            (@normal_mouse_wheel_handled float _ wheel_up fresh_tool)))
            eq_refl eq_refl) (state_after (zoom_in 0 fresh_tool)) _).
  vm_compute. reflexivity.
Defined.

Lemma zoom_out_by_zero_raises_witness :
  run_op ZoomOut 0 zero_factor_tool = (Raised ZeroDivisionError, zero_factor_tool).
Proof.
  apply (@zoom_out_by_zero_raises float _ ZoomOut 0 zero_factor_tool);
    reflexivity.
Defined.

Lemma _zoom_in_mapper_zero_factor_witness :
  _zoom_in_mapper (-0) (index_mapper plot)
  = (Raised ZeroDivisionError, index_mapper plot).
Proof.
  apply (@_zoom_in_mapper_zero_factor float _ (index_mapper plot) (-0)).
  reflexivity.
Defined.

Lemma wheel_consumed_when_refused_witness :
  normal_mouse_wheel {| mouse_wheel := 1; handled := false |} tool_at_max
  = (Returned {| mouse_wheel := 1; handled := true |}, tool_at_max).
Proof.
  apply (@wheel_consumed_when_refused float _
           {| mouse_wheel := 1; handled := false |} tool_at_max
           (200000, 200000)).
  - reflexivity.
  - discriminate.
  - vm_compute. reflexivity.
  - left. split; vm_compute; reflexivity.
Defined.

Lemma default_factor_is_zoom_factor_witness :
  run_op ZoomIn 0 fresh_tool = run_op ZoomIn 2 fresh_tool.
Proof.
  exact (@default_factor_is_zoom_factor float _ ZoomIn fresh_tool eq_refl).
Defined.

Lemma one_axis_zoom_keeps_other_factor_witness :
  screen_factor fresh_tool Y
    (factors (state_after (run_op ZoomInX 2 fresh_tool)))
  = screen_factor fresh_tool Y (factors fresh_tool).
Proof.
  apply (@one_axis_zoom_keeps_other_factor float _ ZoomInX 2 fresh_tool Y).
  reflexivity.
Defined.

Lemma axis_restriction_keeps_factor_witness :
  kept_factor (axis index_only_tool)
    (factors (state_after (run_op ZoomIn 2 index_only_tool)))
  = Some 1.
Proof.
  apply (@axis_restriction_keeps_factor float _ ZoomIn 2 index_only_tool 1).
  - left. reflexivity.
  - reflexivity.
Defined.

Local Close Scope float_scope.

(** *** In exact arithmetic *)

Local Open Scope Qc_scope.


(** X8: in exact arithmetic [_zoom_in_mapper] composes by
    multiplication: zooming a mapper by [a] and then by [b] is zooming
    it by [a * b], and zooming by [a] and then by [1 / a] leaves the
    mapper as it was. *)
Theorem _zoom_in_mapper_composes (mapper : Mapper Qc) (a b : Qc) :
  a <> 0 -> b <> 0 ->
  (_zoom_in_mapper a ;;; _zoom_in_mapper b)%py mapper
  = _zoom_in_mapper (a * b) mapper /\
  (_zoom_in_mapper a ;;; _zoom_in_mapper (1 / a))%py mapper
  = (Returned tt, mapper).
Proof.
  intros Ha Hb.
  assert (Hzoom : forall (f : Qc) (m : Mapper Qc), f <> 0 ->
            _zoom_in_mapper f m = (Returned tt, set_range (zoomed f (range m)) m)).
  { intros f m Hf. rewrite (_zoom_in_mapper_returns m Hf). reflexivity. }
  assert (Hab : a * b <> 0).
  { intro E. apply Qcmult_integral in E. destruct E; contradiction. }
  assert (Hinv : 1 / a <> 0).
  { intro E. apply (Qc_div_zero Ha) in E. discriminate E. }
  unfold bind. rewrite (Hzoom a mapper Ha).
  rewrite (Hzoom b _ Hb), (Hzoom (1 / a) _ Hinv), (Hzoom (a * b) mapper Hab).
  cbn [range set_range map_data_with].
  rewrite (zoomed_zoomed _ Ha Hb), (zoomed_zoomed _ Ha Hinv).
  split; [reflexivity | ].
  replace (a * (1 / a)) with 1 by (field; exact Ha).
  rewrite zoomed_one. destruct mapper; reflexivity.
Qed.

Lemma _zoom_in_mapper_composes_witness :
  (_zoom_in_mapper (Q2Qc 2) ;;; _zoom_in_mapper (Q2Qc 3))%py mapper_1_5
  = _zoom_in_mapper (Q2Qc 2 * Q2Qc 3) mapper_1_5.
Proof.
  refine (proj1 (@_zoom_in_mapper_composes mapper_1_5 (Q2Qc 2) (Q2Qc 3) _ _));
    discriminate.
Defined.


Local Close Scope Qc_scope.

End ZoomMore.

(* ================================================================== *)
(** * More properties of the two-dimensional range *)
(* ================================================================== *)

Module RangeMore.

Import DataRange1D DataRange2D RangeTerms RangeFacts.

Lemma filter_idempotent {A} (f : A -> bool) (l : list A) :
  filter f (filter f l) = filter f l.
Proof.
  induction l as [ | x l IH]; [reflexivity | ].
  cbn [filter]. destruct (f x) eqn:E; [ | exact IH].
  cbn [filter]. rewrite E, IH. reflexivity.
Qed.

Lemma filter_none {A} (f : A -> bool) (l : list A) :
  (forall x, f x = false) -> filter f l = [] /\ map f l = repeat false (length l).
Proof.
  intro Hf. induction l as [ | x l [IH1 IH2]]; [split; reflexivity | ].
  cbn [filter map length repeat]. rewrite Hf, IH1, IH2. split; reflexivity.
Qed.

Section Generic.

Context {F : Type} `{Arith F}.
Variable calc_bounds : Setting F -> Setting F -> list DataSource -> F * F.

Lemma clip_data_filter (r : DataRange2D F) (data : list (F * F)) :
  clip_data r data = filter (inside r) data.
Proof. unfold clip_data. rewrite mask_data_map. apply compress_map_filter. Qed.

(** X9: [clip_data] keeps exactly the points of the data that lie in the
    rectangle, clipping clipped data changes nothing, and the mask of
    clipped data is [True] throughout. *)
Theorem clip_data_idempotent (r : DataRange2D F) (data : list (F * F)) :
  (forall point, In point (clip_data r data) <->
                 In point data /\ inside r point = true) /\
  clip_data r (clip_data r data) = clip_data r data /\
  mask_data r (clip_data r data) = repeat true (length (clip_data r data)).
Proof.
  rewrite mask_data_map, !clip_data_filter.
  split; [intro point; apply filter_In | ].
  split; [apply filter_idempotent | ].
  induction data as [ | point data IH]; [reflexivity | ].
  cbn [filter]. destruct (inside r point) eqn:E; [ | exact IH].
  cbn [map length repeat]. rewrite E, IH. reflexivity.
Qed.

(** X10: masking and clipping work point by point: the mask of two
    arrays of points laid end to end is the two masks laid end to end,
    and likewise for the clipped data. *)
Theorem clip_data_concatenate (r : DataRange2D F) (data1 data2 : list (F * F)) :
  mask_data r (data1 ++ data2) = mask_data r data1 ++ mask_data r data2 /\
  clip_data r (data1 ++ data2) = clip_data r data1 ++ clip_data r data2.
Proof.
  rewrite !mask_data_map, !clip_data_filter.
  split; [apply map_app | apply filter_app].
Qed.

(** X11: [reset()] writes the private [_low_setting] and [_high_setting]
    only; after [set_bounds] with numbers the two 1-D ranges hold the
    settings, so [reset()] leaves the bounds and the settings read
    through [low_setting] and [high_setting] at the numbers given: it
    does not bring the range back to 'auto'. *)
Theorem reset_keeps_user_bounds (r : DataRange2D F) (lx ly hx hy : F) :
  let r1 := state_after
              (set_bounds calc_bounds (number lx, number ly)
                          (number hx, number hy) r) in
  let r2 := state_after (reset calc_bounds r1) in
  result_of (reset calc_bounds r1) = Returned tt /\
  _low_setting r2 = (auto, auto) /\ _high_setting r2 = (auto, auto) /\
  _get_low_setting r2 = (number lx, number ly) /\
  _get_high_setting r2 = (number hx, number hy) /\
  _get_low r2 = (lx, ly) /\ _get_high r2 = (hx, hy).
Proof. repeat split. Qed.

End Generic.

(** *** In exact arithmetic *)

Local Open Scope Qc_scope.

(** X12: a range whose high bound lies below its low bound in some
    dimension contains no point: the mask is [False] throughout and
    [clip_data] returns no point.  The bounds are not swapped. *)
Theorem inverted_bounds_clip_all (r : DataRange2D Qc) (data : list (Qc * Qc)) :
  fst (_get_high r) < fst (_get_low r) \/
  snd (_get_high r) < snd (_get_low r) ->
  mask_data r data = repeat false (length data) /\ clip_data r data = [].
Proof.
  intro Hinv. rewrite clip_data_filter, mask_data_map.
  assert (Hout : forall point, inside r point = false).
  { intros [x y]. destruct (inside r (x, y)) eqn:E; [ | reflexivity].
    apply inside_exact in E. destruct E as [[Hx1 Hx2] [Hy1 Hy2]].
    destruct Hinv as [Hlt | Hlt]; exfalso.
    - apply (Qclt_not_le _ _ Hlt). exact (Qcle_trans _ _ _ Hx1 Hx2).
    - apply (Qclt_not_le _ _ Hlt). exact (Qcle_trans _ _ _ Hy1 Hy2). }
  destruct (filter_none (inside r) data Hout) as [Hf Hm].
  split; assumption.
Qed.

Lemma inverted_bounds_clip_all_witness :
  mask_data (set_range_2d 1 0 0 1) [(Q2Qc (1 # 2), Q2Qc (1 # 2))] = [false] /\
  clip_data (set_range_2d 1 0 0 1) [(Q2Qc (1 # 2), Q2Qc (1 # 2))] = [].
Proof.
  apply (@inverted_bounds_clip_all (set_range_2d 1 0 0 1)
           [(Q2Qc (1 # 2), Q2Qc (1 # 2))]).
  left. reflexivity.
Defined.

Local Close Scope Qc_scope.

End RangeMore.

(* ================================================================== *)
(** * More properties of the arrow *)
(* ================================================================== *)

Module ArrowMore.

Import DataLabel ArrowFacts.

Local Open Scope R_scope.











End ArrowMore.

(* ================================================================== *)
(** * Properties of the animated plots *)
(* ================================================================== *)

Module UpdatingPlotFacts.

Import UpdatingPlot.

Local Open Scope Z_scope.

Section Animated.

Variable A : Type.

Lemma ticks_0 (p : AnimatedPlot A) : ticks 0 p = p.
Proof. reflexivity. Qed.

Lemma ticks_S (k : nat) (p : AnimatedPlot A) :
  ticks (S k) p = timer_tick (ticks k p).
Proof. reflexivity. Qed.

Lemma ticks_shift (k : nat) (p : AnimatedPlot A) :
  ticks (S k) p = ticks k (timer_tick p).
Proof. unfold ticks. apply Nat.iter_succ_r. Qed.

Lemma ticks_add (j k : nat) (p : AnimatedPlot A) :
  ticks (j + k) p = ticks j (ticks k p).
Proof. unfold ticks. apply Nat.iter_add. Qed.

(** What a tick hands to the two data sources. *)
Lemma timer_tick_shown (p : AnimatedPlot A) :
  plot_index (timer_tick p)
  = slice_to (current_index (timer_tick p)) (x_values p).
Proof. reflexivity. Qed.

Lemma timer_tick_shown_value (p : AnimatedPlot A) :
  plot_value (timer_tick p)
  = slice_to (current_index (timer_tick p)) (y_values p).
Proof. reflexivity. Qed.

(** A tick leaves the arrays and the number of points alone. *)
Lemma ticks_data (k : nat) (p : AnimatedPlot A) :
  x_values (ticks k p) = x_values p /\
  y_values (ticks k p) = y_values p /\
  numpoints (ticks k p) = numpoints p.
Proof.
  induction k as [ | k (Hx & Hy & Hn)]; [repeat split | ].
  rewrite ticks_S. cbn [timer_tick x_values y_values numpoints].
  repeat split; assumption.
Qed.

Ltac tick_cases p :=
  cbn [timer_tick numpoints current_index increment];
  destruct (current_index p <=? numpoints p / 3) eqn:?;
  [ | destruct (current_index p =? numpoints p) eqn:? ];
  try match goal with
      | |- context [?a >? ?b] => destruct (a >? b) eqn:?
      end;
  rewrite ?Z.leb_le, ?Z.leb_gt, ?Z.eqb_eq, ?Z.eqb_neq, ?Z.gtb_ltb,
    ?Z.ltb_lt, ?Z.ltb_ge in *.

Lemma new_AnimatedPlot_swings (x y : list A) : swings (new_AnimatedPlot x y).
Proof.
  unfold swings, new_AnimatedPlot. cbn [numpoints current_index increment].
  pose proof (Zle_0_nat (length x)) as Hlen.
  split; [exact Hlen | ]. split; [ | left; reflexivity].
  Z.to_euclidean_division_equations. lia.
Qed.

Lemma timer_tick_swings (p : AnimatedPlot A) : swings p -> swings (timer_tick p).
Proof.
  unfold swings. intros (Hn & Hc & Hinc).
  tick_cases p; (split; [exact Hn | ]);
    (split; [Z.to_euclidean_division_equations; lia | ]);
    try (left; reflexivity); try (right; reflexivity); exact Hinc.
Qed.

Lemma ticks_swings (x y : list A) (k : nat) :
  swings (ticks k (new_AnimatedPlot x y)).
Proof.
  induction k as [ | k IH]; [apply new_AnimatedPlot_swings | ].
  rewrite ticks_S. apply timer_tick_swings. exact IH.
Qed.

(** X16: after any number of timer events the index lies between a
    third of the number of points, less one, and the number of points,
    the increment is 2 or -2, and the arrays the plot was built from are
    as they were. *)
Theorem timer_tick_swings_forever (x y : list A) (k : nat) :
  let p := ticks k (new_AnimatedPlot x y) in
  x_values p = x /\ y_values p = y /\
  numpoints p = Z.of_nat (length x) /\
  numpoints p / 3 - 1 <= current_index p <= numpoints p /\
  (increment p = 2 \/ increment p = - 2).
Proof.
  cbv zeta.
  destruct (ticks_data k (new_AnimatedPlot x y)) as (Hx & Hy & Hn).
  split; [exact Hx | ]. split; [exact Hy | ]. split; [exact Hn | ].
  exact (proj2 (ticks_swings x y k)).
Qed.

(** The invariant of the plots with no, two or more points. *)
Lemma ticks_nonneg (x y : list A) (k : nat) :
  length x <> 1%nat ->
  let p := ticks k (new_AnimatedPlot x y) in
  0 <= current_index p <= numpoints p /\
  (numpoints p = 2 -> current_index p = 1 -> increment p = 2).
Proof.
  intro Hlen. cbv zeta.
  assert (Hlen' : Z.of_nat (length x) <> 1) by lia.
  pose proof (Zle_0_nat (length x)) as Hlen0.
  induction k as [ | k [Hc Htwo]].
  - rewrite ticks_0.
    cbn [new_AnimatedPlot numpoints current_index increment].
    split; [Z.to_euclidean_division_equations; lia | reflexivity].
  - rewrite ticks_S.
    destruct (ticks_data k (new_AnimatedPlot x y)) as (_ & _ & Hn).
    cbn [new_AnimatedPlot numpoints] in Hn.
    destruct (ticks_swings x y k) as (_ & Hlow & Hinc).
    set (p := ticks k (new_AnimatedPlot x y)) in *.
    tick_cases p;
      (split; [Z.to_euclidean_division_equations; lia | ]);
      intros; try reflexivity;
      Z.to_euclidean_division_equations; lia.
Qed.

(** X17: unless the plot has exactly one point, the index is never
    negative, and after each timer event the two data sources of the
    plot hold the first [current_index] numbers of the two arrays. *)
Theorem timer_tick_shows_prefix (x y : list A) (k : nat) :
  length x <> 1%nat ->
  let p := ticks (S k) (new_AnimatedPlot x y) in
  0 <= current_index p <= Z.of_nat (length x) /\
  plot_index p = firstn (Z.to_nat (current_index p)) x /\
  plot_value p = firstn (Z.to_nat (current_index p)) y /\
  length (plot_index p) = Z.to_nat (current_index p).
Proof.
  intro Hlen. cbv zeta.
  destruct (ticks_nonneg x y (S k) Hlen) as [Hc _].
  destruct (ticks_data (S k) (new_AnimatedPlot x y)) as (_ & _ & Hn).
  destruct (ticks_data k (new_AnimatedPlot x y)) as (Hx & Hy & _).
  cbn [new_AnimatedPlot numpoints x_values y_values] in Hn, Hx, Hy.
  rewrite Hn in Hc. split; [exact Hc | ].
  assert (Hslice : forall a : list A,
            slice_to (current_index (ticks (S k) (new_AnimatedPlot x y))) a
            = firstn (Z.to_nat (current_index (ticks (S k) (new_AnimatedPlot x y)))) a).
  { intro a. unfold slice_to.
    destruct (0 <=? current_index (ticks (S k) (new_AnimatedPlot x y))) eqn:E;
      [reflexivity | ].
    apply Z.leb_gt in E. lia. }
  assert (Hi : plot_index (ticks (S k) (new_AnimatedPlot x y))
               = firstn (Z.to_nat (current_index (ticks (S k) (new_AnimatedPlot x y)))) x).
  { rewrite <- Hslice, ticks_S, timer_tick_shown, Hx. reflexivity. }
  split; [exact Hi | ].
  split; [rewrite <- Hslice, ticks_S, timer_tick_shown_value, Hy; reflexivity | ].
  rewrite Hi, length_firstn. lia.
Qed.

(** X18: a plot of exactly one point blinks: after an odd number of
    timer events the index is 1 and the point is shown, after an even
    number (two or more) the index is -1 and the data sources hold
    nothing. *)
Theorem single_point_blinks (x y : list A) (k : nat) :
  length x = 1%nat ->
  let odd := ticks (2 * k + 1) (new_AnimatedPlot x y) in
  let even := ticks (2 * k + 2) (new_AnimatedPlot x y) in
  current_index odd = 1 /\ plot_index odd = x /\
  current_index even = - 1 /\ plot_index even = [].
Proof.
  intro Hlen. cbv zeta.
  assert (Hodd : current_index (ticks (2 * k + 1) (new_AnimatedPlot x y)) = 1).
  { induction k as [ | k IH].
    - cbn. rewrite Hlen. reflexivity.
    - replace (2 * S k + 1)%nat with (S (S (2 * k + 1))) by lia.
      destruct (ticks_data (2 * k + 1) (new_AnimatedPlot x y)) as (_ & _ & Hn).
      cbn [new_AnimatedPlot numpoints] in Hn. rewrite Hlen in Hn.
      rewrite !ticks_S.
      cbn [timer_tick numpoints current_index increment].
      rewrite IH, Hn. reflexivity. }
  destruct (ticks_data (2 * k + 1) (new_AnimatedPlot x y)) as (Hx1 & _ & Hn1).
  destruct (ticks_data (2 * k) (new_AnimatedPlot x y)) as (Hx0 & _ & _).
  cbn [new_AnimatedPlot numpoints x_values] in Hn1, Hx1, Hx0.
  rewrite Hlen in Hn1.
  assert (Heven : current_index (ticks (2 * k + 2) (new_AnimatedPlot x y)) = - 1).
  { replace (2 * k + 2)%nat with (S (2 * k + 1)) by lia. rewrite ticks_S.
    cbn [timer_tick current_index]. rewrite Hodd, Hn1. reflexivity. }
  split; [exact Hodd | ]. split; [ | split; [exact Heven | ]].
  - replace (2 * k + 1)%nat with (S (2 * k)) in Hodd |- * by lia.
    rewrite ticks_S in Hodd |- *.
    cbn [timer_tick plot_index current_index] in Hodd |- *.
    rewrite Hodd, Hx0. unfold slice_to. cbn.
    destruct x as [ | a [ | b x']]; try discriminate Hlen. reflexivity.
  - replace (2 * k + 2)%nat with (S (2 * k + 1)) in Heven |- * by lia.
    rewrite ticks_S in Heven |- *.
    cbn [timer_tick plot_index current_index] in Heven |- *.
    rewrite Heven, Hx1. unfold slice_to. cbn. rewrite Hlen. reflexivity.
Qed.

(** With the increment at 2, or the index at most a third of the
    points, the index climbs to the number of points. *)
Lemma climbs (m : nat) : forall p : AnimatedPlot A,
  swings p ->
  (Z.to_nat (numpoints p - current_index p) <= m)%nat ->
  current_index p <= numpoints p / 3 \/ increment p = 2 ->
  exists j, current_index (ticks j p) = numpoints p.
Proof.
  induction m as [ | m IH]; intros p Hs Hm Hup.
  - exists 0%nat. rewrite ticks_0. destruct Hs as (_ & Hc & _). lia.
  - destruct (Z.eq_dec (current_index p) (numpoints p)) as [E | E];
      [exists 0%nat; rewrite ticks_0; exact E | ].
    destruct (IH (timer_tick p)) as [j Hj].
    + apply timer_tick_swings. exact Hs.
    + destruct Hs as (Hn & Hc & Hinc). tick_cases p; lia.
    + right. destruct Hs as (Hn & Hc & Hinc). tick_cases p; lia.
    + exists (S j). rewrite ticks_shift. exact Hj.
Qed.

Lemma returns (m : nat) : forall p : AnimatedPlot A,
  swings p ->
  (Z.to_nat (current_index p - numpoints p / 3 + 1) <= m)%nat ->
  exists j, current_index (ticks j p) = numpoints p.
Proof.
  induction m as [ | m IH]; intros p Hs Hm.
  - apply (@climbs (Z.to_nat (numpoints p - current_index p)) p Hs (le_n _)).
    left. lia.
  - destruct (Z.eq_dec (current_index p) (numpoints p)) as [E | E];
      [exists 0%nat; rewrite ticks_0; exact E | ].
    destruct (Z_le_gt_dec (current_index p) (numpoints p / 3)) as [Hl | Hl];
      [apply (@climbs (Z.to_nat (numpoints p - current_index p)) p Hs (le_n _));
       left; exact Hl | ].
    destruct (Z.eq_dec (increment p) 2) as [Hi | Hi];
      [apply (@climbs (Z.to_nat (numpoints p - current_index p)) p Hs (le_n _));
       right; exact Hi | ].
    destruct (IH (timer_tick p)) as [j Hj].
    + apply timer_tick_swings. exact Hs.
    + destruct Hs as (Hn & Hc & Hinc). tick_cases p; lia.
    + exists (S j). rewrite ticks_shift. exact Hj.
Qed.

(** With the index at the number of points the plot shows the whole
    array. *)
Lemma full_index_shows_all (x y : list A) (k : nat) :
  current_index (ticks k (new_AnimatedPlot x y)) = Z.of_nat (length x) ->
  plot_index (ticks k (new_AnimatedPlot x y)) = x.
Proof.
  destruct k as [ | k]; [reflexivity | ].
  intro Hc. rewrite ticks_S, timer_tick_shown, <- ticks_S, Hc.
  destruct (ticks_data k (new_AnimatedPlot x y)) as (Hx & _).
  rewrite Hx. cbn [new_AnimatedPlot x_values].
  unfold slice_to.
  destruct (0 <=? Z.of_nat (length x)) eqn:E; [ | apply Z.leb_gt in E; lia].
  rewrite Nat2Z.id. apply firstn_all.
Qed.

(** X19: the animation never gets stuck: whatever the number of timer
    events so far, after some more of them the index is the number of
    points again and the plot shows the whole array. *)
Theorem index_returns_to_full (x y : list A) (k : nat) :
  exists j,
    current_index (ticks (j + k) (new_AnimatedPlot x y))
    = Z.of_nat (length x) /\
    plot_index (ticks (j + k) (new_AnimatedPlot x y)) = x.
Proof.
  pose proof (ticks_swings x y k) as Hs.
  destruct (@returns
              (Z.to_nat (current_index (ticks k (new_AnimatedPlot x y))
                         - numpoints (ticks k (new_AnimatedPlot x y)) / 3 + 1))
              (ticks k (new_AnimatedPlot x y)) Hs (le_n _)) as [j Hj].
  exists j. rewrite <- ticks_add in Hj.
  destruct (ticks_data k (new_AnimatedPlot x y)) as (_ & _ & Hn).
  cbn [new_AnimatedPlot numpoints] in Hn. rewrite Hn in Hj.
  split; [exact Hj | ]. apply full_index_shows_all. exact Hj.
Qed.

End Animated.

Lemma timer_tick_shows_prefix_witness :
  plot_index (ticks 3 (new_AnimatedPlot [10; 11; 12; 13; 14; 15]
                                         [20; 21; 22; 23; 24; 25]))
  = firstn
      (Z.to_nat
         (current_index
            (ticks 3 (new_AnimatedPlot [10; 11; 12; 13; 14; 15]
                                        [20; 21; 22; 23; 24; 25]))))
      [10; 11; 12; 13; 14; 15].
Proof.
  assert (Hlen : length [10; 11; 12; 13; 14; 15] <> 1%nat) by discriminate.
  exact (proj1 (proj2 (@timer_tick_shows_prefix Z [10; 11; 12; 13; 14; 15]
                         [20; 21; 22; 23; 24; 25] 2 Hlen))).
Defined.

Lemma single_point_blinks_witness :
  current_index (ticks (2 * 1 + 2) (new_AnimatedPlot [10] [20])) = - 1 /\
  plot_index (ticks (2 * 1 + 2) (new_AnimatedPlot [10] [20])) = [].
Proof.
  exact (proj2 (proj2 (@single_point_blinks Z [10] [20] 1 eq_refl))).
Defined.

(** X20: the plots of [_create_window] never overlap: any two of them
    are laid out at least 50 pixels apart along x or along y. *)
Theorem plots_do_not_overlap (i j : Z) :
  0 <= i -> 0 <= j -> i <> j ->
  apart 50 (plot_position i) (plot_position j).
Proof.
  intros Hi Hj Hne. unfold apart, plot_position, PLOT_SIZE. cbn [fst snd].
  Z.to_euclidean_division_equations. lia.
Qed.

Lemma plots_do_not_overlap_witness :
  apart 50 (plot_position 2) (plot_position 3).
Proof.
  apply (@plots_do_not_overlap 2 3); lia.
Defined.

End UpdatingPlotFacts.

(* ================================================================== *)
(** * Properties of the layout of the data label *)
(* ================================================================== *)

Module LabelFacts.

Import LabelLayout.

Local Open Scope string_scope.
Local Open Scope list_scope.

Section Label.

Context {F : Type} `{Arith F}.

(** X21: whatever string [label_position] is, a run of [_do_layout]
    assigns none of [x], [y], [outer_x], [outer_y] twice; for each of
    the nine values of [LabelPositionTrait] it places the label in both
    directions: it assigns exactly one of [x] and [outer_x] and exactly
    one of [y] and [outer_y]. *)
Theorem _do_layout_places_label (label_position : string)
        (screen_coords : F * F) (self : Box F) :
  let writes := _do_layout true label_position screen_coords self in
  (forall a, assignments a writes <= 1)%nat /\
  (In label_position LabelPositionTrait ->
   (assignments attr_x writes + assignments attr_outer_x writes = 1)%nat /\
   (assignments attr_y writes + assignments attr_outer_y writes = 1)%nat).
Proof.
  cbv zeta. destruct screen_coords as [sx sy]. split.
  - intro a. unfold _do_layout. cbn [negb].
    destruct (String.eqb label_position "center") eqn:E.
    + apply String.eqb_eq in E. subst label_position.
      destruct a; cbn; lia.
    + destruct (contains "left" label_position),
        (contains "right" label_position),
        (contains " " label_position),
        (contains "top" label_position),
        (contains "bottom" label_position);
        destruct a; cbn; lia.
  - intro Hin. unfold LabelPositionTrait in Hin. cbn [In] in Hin.
    repeat (destruct Hin as [Hin | Hin];
            [subst label_position; split; reflexivity | ]).
    contradiction.
Qed.

End Label.

Lemma _do_layout_places_label_witness :
  (assignments attr_x
     (_do_layout true "top left" (100%float, 50%float)
        {| width := 40%float; height := 20%float;
           outer_width := 44%float; outer_height := 24%float |})
   + assignments attr_outer_x
       (_do_layout true "top left" (100%float, 50%float)
          {| width := 40%float; height := 20%float;
             outer_width := 44%float; outer_height := 24%float |})
   = 1)%nat.
Proof.
  refine (proj1 (proj2 (@_do_layout_places_label float _ "top left"
                          (100%float, 50%float)
                          {| width := 40%float; height := 20%float;
                             outer_width := 44%float;
                             outer_height := 24%float |}) _)).
  cbn. tauto.
Defined.

End LabelFacts.

(* ================================================================== *)
(** * Properties of the dates of the example *)
(* ================================================================== *)

Module DatesFacts.

Import Dates.

Local Open Scope Qc_scope.

Lemma of_nat_S (n : nat) : of_nat (S n) = of_nat n + 1.
Proof.
  unfold of_nat. rewrite Nat2Z.inj_succ. unfold Z.succ.
  apply Qc_is_canon. cbn [this Qcplus Q2Qc].
  rewrite !Qred_correct, inject_Z_plus. reflexivity.
Qed.

Lemma of_nat_nonzero (n : nat) : (1 <= n)%nat -> of_nat n <> 0.
Proof.
  intros Hn E. unfold of_nat in E. change 0 with (Q2Qc 0) in E.
  apply Q2Qc_eq_iff in E. unfold Qeq, inject_Z in E. cbn in E. lia.
Qed.

Lemma nth_error_linspace (start stop : Qc) (div i : nat) :
  (i <= S div)%nat ->
  nth_error (linspace start stop (S (S div))) i
  = Some (start + of_nat i * ((stop - start) / of_nat (S div))).
Proof.
  intro Hi. unfold linspace.
  rewrite nth_error_map.
  rewrite (nth_error_nth' (seq 0 (S (S div))) 0%nat)
    by (rewrite length_seq; lia).
  rewrite seq_nth by lia. reflexivity.
Qed.

(** X22: the script's dates are not one day apart, as its comment has
    it: for two or more points, [linspace] lays [numpoints] dates from
    [now] to [now + numpoints * dt], both included, so two dates in a
    row differ by [numpoints * dt / (numpoints - 1)], which is [dt] only
    when [dt] is zero. *)
Theorem dates_spacing (numpoints : nat) (dt now : Qc) :
  (2 <= numpoints)%nat ->
  length (dates numpoints dt now) = numpoints /\
  (forall i a b,
      nth_error (dates numpoints dt now) i = Some a ->
      nth_error (dates numpoints dt now) (S i) = Some b ->
      b - a = of_nat numpoints * dt / of_nat (numpoints - 1)) /\
  (dt <> 0 -> of_nat numpoints * dt / of_nat (numpoints - 1) <> dt).
Proof.
  intro Hn. destruct numpoints as [ | [ | div]]; try lia.
  replace (S (S div) - 1)%nat with (S div) by lia.
  pose proof (@of_nat_nonzero (S div) ltac:(lia)) as Hdiv.
  split; [ | split].
  - unfold dates, linspace. rewrite length_map, length_seq. reflexivity.
  - intros i a b Ha Hb.
    assert (Hi : (S i < S (S div))%nat).
    { assert (Hlt : (S i < length (dates (S (S div)) dt now))%nat)
        by (apply nth_error_Some; rewrite Hb; discriminate).
      unfold dates, linspace in Hlt.
      rewrite length_map, length_seq in Hlt. exact Hlt. }
    unfold dates in Ha, Hb.
    rewrite nth_error_linspace in Ha, Hb by lia.
    injection Ha as <-. injection Hb as <-.
    rewrite (of_nat_S i). field. exact Hdiv.
  - intros Hdt E. apply Hdt.
    rewrite (of_nat_S (S div)) in E.
    assert (E' : (of_nat (S div) + 1) * dt = dt * of_nat (S div)).
    { rewrite <- E at 2. field. exact Hdiv. }
    assert (E'' : dt = (of_nat (S div) + 1) * dt - dt * of_nat (S div)) by ring.
    rewrite E''. rewrite E'. ring.
Qed.

Lemma dates_spacing_witness :
  length (dates numpoints dt 0) = numpoints.
Proof.
  refine (proj1 (@dates_spacing numpoints dt 0 _)).
  unfold numpoints. lia.
Defined.

End DatesFacts.
